(** * kb-app: the vector store client (src/lib/openaiClient.ts)

    A shallow embedding of the API client and of the JavaScript it relies
    on: JSON values as they come out of [res.json()], property access with
    its [TypeError] on [null] and [undefined], exceptions, and a state
    monad whose state records every request handed to [fetch]. *)

From Stdlib Require Import ZArith String Ascii Bool Lia DecimalString.
From stdpp Require Import base list strings gmap.

Local Open Scope string_scope.
Local Open Scope Z_scope.
Set Warnings "-register-all".

(** ** JavaScript values *)

(** What [JSON.parse] can produce. An object keeps its properties in
    insertion order, one entry per own property; reading a key takes the
    first entry that carries it. Numbers are the integers. *)
Inductive JSON : Type :=
| JNull
| JBool (b : bool)
| JNum (n : Z)
| JStr (s : string)
| JArr (items : list JSON)
| JObj (props : list (string * JSON)).

(** A JavaScript value the client handles: [None] is [undefined]. *)
Definition value : Type := option JSON.

Definition undefined : value := None.

(** What a [throw] carries. [Error m] is [new Error(m)]; the engine's own
    errors are kept without their engine-specific message. [RangeError] is
    the one the engine throws when the call stack is exhausted. *)
Inductive exn : Type :=
| Error (message : string)
| TypeError
| SyntaxError
| RangeError.

Inductive Outcome (A : Type) : Type :=
| Ret (a : A)
| Throw (e : exn).
Arguments Ret {A} a.
Arguments Throw {A} e.

Module Outcome.

Definition bind {A B} (m : Outcome A) (k : A -> Outcome B) : Outcome B :=
  match m with
  | Ret a => k a
  | Throw e => Throw e
  end.

End Outcome.

Declare Scope outcome_scope.
Delimit Scope outcome_scope with outcome.
Notation "'let!' x ':=' m 'in' k" := (Outcome.bind m (fun x => k))
  (at level 10, x name, m at level 100, k at level 200) : outcome_scope.

Fixpoint assoc {A} (k : string) (ps : list (string * A)) : option A :=
  match ps with
  | [] => None
  | (k', x) :: rest => if String.eqb k' k then Some x else assoc k rest
  end.

(** [v.k]. Reading a property of [null] or [undefined] throws; a string, a
    number, a boolean or an array has none of the keys the client reads. *)
Definition get (v : value) (k : string) : Outcome value :=
  match v with
  | None | Some JNull => Throw TypeError
  | Some (JObj ps) => Ret (assoc k ps)
  | Some _ => Ret undefined
  end.

Definition nullish (v : value) : bool :=
  match v with
  | None | Some JNull => true
  | Some _ => false
  end.

(** [v?.k] *)
Definition opt_get (v : value) (k : string) : Outcome value :=
  if nullish v then Ret undefined else get v k.

(** [a ?? b], for a right operand that has no effect *)
Definition coalesce (a b : value) : value :=
  if nullish a then b else a.
Infix "??" := coalesce (at level 45, right associativity).

(** [v === "s"] *)
Definition is_str (v : value) (s : string) : bool :=
  match v with
  | Some (JStr s') => String.eqb s' s
  | _ => false
  end.

(** [String(n)] on an integer *)
Definition Number_toString (n : Z) : string :=
  NilZero.string_of_int (Z.to_int n).

Definition Boolean_toString (b : bool) : string :=
  if b then "true" else "false".

(** [Array.prototype.join]: a [null] element contributes the empty string *)
Fixpoint ToString_json (j : JSON) : string :=
  match j with
  | JNull => "null"
  | JBool b => Boolean_toString b
  | JNum n => Number_toString n
  | JStr s => s
  | JArr items =>
      String.concat ","
        (map (fun x => match x with JNull => "" | _ => ToString_json x end) items)
  | JObj _ => "[object Object]"
  end.

(** The conversion a template literal applies to [${v}] *)
Definition ToString (v : value) : string :=
  match v with
  | None => "undefined"
  | Some j => ToString_json j
  end.

(** [String.prototype.trim] on the code units below 256: tab, line feed,
    vertical tab, form feed, carriage return, space and no-break space. *)
Definition is_white_space (c : ascii) : bool :=
  let n := N_of_ascii c in
  ((9 <=? n) && (n <=? 13) || (n =? 32) || (n =? 160))%N.

Fixpoint trim_start (s : string) : string :=
  match s with
  | EmptyString => EmptyString
  | String c rest => if is_white_space c then trim_start rest else s
  end.

Fixpoint reverse (s : string) : string :=
  match s with
  | EmptyString => EmptyString
  | String c rest => reverse rest ++ String c EmptyString
  end.

Definition trim (s : string) : string :=
  reverse (trim_start (reverse (trim_start s))).

(** A string is falsy exactly when it is empty. *)
Definition truthy (s : string) : bool :=
  match s with
  | EmptyString => false
  | String _ _ => true
  end.

(** [a || b] on strings *)
Definition or_else (a b : string) : string :=
  if truthy a then a else b.

(** ** The host: network, clock, random source, serializer, scheduler *)

(** [File]: the part of a browser file the client reads or sends. *)
Record File : Type := {
  file_name : string;
  file_size : Z;
  file_content : string
}.

Inductive FormValue : Type :=
| FormFile (f : File)
| FormString (s : string).

Inductive Body : Type :=
| BodyText (s : string)
| BodyForm (fields : list (string * FormValue)).

Record Request : Type := {
  req_method : string;
  req_url : string;
  req_headers : list (string * string);
  req_body : option Body
}.

(** A response as the client observes it: [res_json] is what [res.json()]
    resolves to, [None] when the body is not JSON and [res.json()] rejects. *)
Record Response : Type := {
  res_status : Z;
  res_statusText : string;
  res_json : option JSON
}.

(** [res.ok]: the status is in the range 200-299. *)
Definition ok (res : Response) : bool :=
  (200 <=? res_status res) && (res_status res <=? 299).

(** How a [fetch] settles: with a response (of any status), or rejected. *)
Inductive FetchOutcome : Type :=
| Responded (res : Response)
| Rejected (e : exn).

(** Everything the client takes from its environment. [remote log req] is
    how the service settles [req] after the requests in [log]; [Date_now]
    and [randomUUID] are indexed by the number of earlier calls to either;
    [arrival] says which pending promise settles next. *)
Class Host : Type := {
  remote : list Request -> Request -> FetchOutcome;
  Date_now : nat -> Z;
  randomUUID : nat -> string;
  JSON_stringify : JSON -> string;
  arrival : nat -> nat
}.

Record World : Type := {
  sent : list Request;
  ticks : nat
}.

(** The world once [req] has left *)
Definition record (req : Request) (w : World) : World :=
  {| sent := sent w ++ [req]; ticks := ticks w |}.

Definition tick (w : World) : World :=
  {| sent := sent w; ticks := S (ticks w) |}.

(** An [async] function body: it reads and extends the world and either
    returns or throws (a rejected promise, once awaited). *)
Definition JS (A : Type) : Type := World -> Outcome A * World.

Module JS.

Definition ret {A} (a : A) : JS A := fun w => (Ret a, w).

Definition throw {A} (e : exn) : JS A := fun w => (Throw e, w).

Definition bind {A B} (m : JS A) (k : A -> JS B) : JS B :=
  fun w =>
    match m w with
    | (Ret a, w') => k a w'
    | (Throw e, w') => (Throw e, w')
    end.

Definition lift {A} (o : Outcome A) : JS A := fun w => (o, w).

(** The outcome of [m] as a value: what a surrounding [try] observes. *)
Definition attempt {A} (m : JS A) : JS (Outcome A) :=
  fun w => let (o, w') := m w in (Ret o, w').

End JS.

Declare Scope js_scope.
Delimit Scope js_scope with js.
Notation "'let*' x ':=' m 'in' k" := (JS.bind m (fun x => k))
  (at level 10, x name, m at level 100, k at level 200) : js_scope.

Section Client.
Context {host : Host}.

Definition fetch (req : Request) : JS Response :=
  fun w =>
    match remote (sent w) req with
    | Responded res => (Ret res, record req w)
    | Rejected e => (Throw e, record req w)
    end.

Definition now : JS Z :=
  fun w => (Ret (Date_now (ticks w)), tick w).

Definition crypto_randomUUID : JS string :=
  fun w => (Ret (randomUUID (ticks w)), tick w).

(** [res.json()] *)
Definition Response_json (res : Response) : Outcome JSON :=
  match res_json res with
  | Some j => Ret j
  | None => Throw SyntaxError
  end.

(** [(err as Error).message]; the text of an engine error is never read by
    the client, whose only [catch] that reads it guards [ensureSettings]. *)
Definition message (err : exn) : string :=
  match err with
  | Error m => m
  | TypeError => "TypeError"
  | SyntaxError => "SyntaxError"
  | RangeError => "RangeError"
  end.

(** ** types *)

Record Settings : Type := {
  apiKey : string;
  model : string;
  vectorStoreId : string
}.

(** The fields hold whatever the remote body held: the TypeScript types are
    erased at run time. A field that is absent reads [undefined]. *)
Record KnowledgeFile : Type := {
  kf_id : value;
  kf_filename : value;
  kf_bytes : value;
  kf_status : value;
  kf_created_at : value;
  kf_metadata : value
}.

Inductive Role : Type := user | assistant | system.

Record ChatMessage : Type := {
  msg_id : value;
  role : Role;
  content : string;
  createdAt : Z
}.

(** ** src/lib/openaiClient.ts *)

Definition API_BASE : string := "https://api.openai.com/v1".

(** [{ ok: true, data } | { ok: false, error }] *)
Inductive ApiResult (T : Type) : Type :=
| Success (data : T)
| Failure (error : value).
Arguments Success {T} data.
Arguments Failure {T} error.

Definition ensureSettings (settings : Settings) : Outcome unit :=
  if negb (truthy (apiKey settings)) then Throw (Error "Missing API key")
  else if negb (truthy (vectorStoreId settings)) then
    Throw (Error "Missing vector store id")
  else Ret tt.

Definition authHeaders (apiKey : string) (extra : list (string * string))
  : list (string * string) :=
  ("Authorization", "Bearer " ++ apiKey) :: extra.

Definition handleResponse (res : Response) : Outcome (ApiResult JSON) :=
  if ok res then
    (let! json := Response_json res in
     Ret (Success json))%outcome
  else
    let message : value :=
      Some (JStr (Number_toString (res_status res) ++ " " ++ res_statusText res)) in
    let message :=
      match (let! body := Response_json res in
             let! error := get (Some body) "error" in
             let! m := opt_get error "message" in
             Ret (m ?? message))%outcome
      with
      | Ret m => m
      | Throw _ => message
      end in
    Ret (Failure message).

(** The guard every operation but [createVectorStore] opens with:
    [try { ensureSettings(settings) } catch (err) { return { ok: false,
    error: (err as Error).message } }], then the rest of the body. *)
Definition guarded {T} (settings : Settings) (rest : JS (ApiResult T))
  : JS (ApiResult T) :=
  match ensureSettings settings with
  | Throw err => JS.ret (Failure (Some (JStr (message err))))
  | Ret _ => rest
  end.

Definition create_request (name : string) (settings : Settings) : Request := {|
  req_method := "POST";
  req_url := API_BASE ++ "/vector_stores";
  req_headers := authHeaders (apiKey settings) [("Content-Type", "application/json")];
  req_body := Some (BodyText (JSON_stringify (JObj [("name", JStr name)])))
|}.

Definition createVectorStore (name : string) (settings : Settings)
  : JS (ApiResult JSON) :=
  if negb (truthy (trim name)) then JS.throw (Error "Vector store name is required")
  else if negb (truthy (apiKey settings)) then JS.throw (Error "API key required")
  else
    (let* res := fetch (create_request name settings) in
     JS.lift (handleResponse res))%js.

(** [JSON.stringify] leaves out a property whose value is [undefined]. *)
Definition field (k : string) (v : value) : list (string * JSON) :=
  match v with
  | Some j => [(k, j)]
  | None => []
  end.

(** [a ?? b] where evaluating [b] has an effect *)
Definition coalesce_with (a : value) (b : JS value) : JS value :=
  if nullish a then b else JS.ret a.

Definition Date_now_value : JS value :=
  (let* t := now in JS.ret (Some (JNum t)))%js.

Definition upload_request (file : File) (settings : Settings) : Request :=
  let form := [("file", FormFile file); ("purpose", FormString "assistants")] in
  {|
    req_method := "POST";
    req_url := API_BASE ++ "/files";
    req_headers := authHeaders (apiKey settings) [];
    req_body := Some (BodyForm form)
  |}.

Definition attach_request (file_id : value) (settings : Settings) : Request := {|
  req_method := "POST";
  req_url := API_BASE ++ "/vector_stores/" ++ vectorStoreId settings ++ "/files";
  req_headers := authHeaders (apiKey settings) [("Content-Type", "application/json")];
  req_body := Some (BodyText (JSON_stringify (JObj (field "file_id" file_id))))
|}.

Definition uploadFile (file : File) (settings : Settings)
  : JS (ApiResult KnowledgeFile) :=
  guarded settings
    (let* uploadRes := fetch (upload_request file settings) in
     let* uploaded := JS.lift (handleResponse uploadRes) in
     match uploaded with
     | Failure error => JS.ret (Failure error)
     | Success uploaded_data =>
         let* uploaded_id := JS.lift (get (Some uploaded_data) "id") in
         let* attachRes := fetch (attach_request uploaded_id settings) in
         let* attached := JS.lift (handleResponse attachRes) in
         match attached with
         | Failure error => JS.ret (Failure error)
         | Success attached_data =>
             let* id := JS.lift (get (Some attached_data) "id") in
             let* usage_bytes := JS.lift (get (Some attached_data) "usage_bytes") in
             let* status := JS.lift (get (Some attached_data) "status") in
             let* created_at := JS.lift (get (Some attached_data) "created_at") in
             let* created_at := coalesce_with created_at Date_now_value in
             let knowledgeFile := {|
               kf_id := id ?? uploaded_id;
               kf_filename := Some (JStr (file_name file));
               kf_bytes := usage_bytes ?? Some (JNum (file_size file));
               kf_status := status ?? Some (JStr "in_progress");
               kf_created_at := created_at;
               kf_metadata := undefined
             |} in
             JS.ret (Success knowledgeFile)
         end
     end)%js.

Definition delete_request (fileId : string) (settings : Settings) : Request := {|
  req_method := "DELETE";
  req_url :=
    API_BASE ++ "/vector_stores/" ++ vectorStoreId settings ++ "/files/" ++ fileId;
  req_headers := authHeaders (apiKey settings) [];
  req_body := None
|}.

Definition deleteFile (fileId : string) (settings : Settings)
  : JS (ApiResult bool) :=
  guarded settings
    (let* res := fetch (delete_request fileId settings) in
     let* parsed := JS.lift (handleResponse res) in
     match parsed with
     | Failure error => JS.ret (Failure error)
     | Success _ => JS.ret (Success true)
     end)%js.

Definition replaceFile (existingFileId : string) (nextFile : File)
    (settings : Settings) : JS (ApiResult KnowledgeFile) :=
  (let* uploaded := uploadFile nextFile settings in
   match uploaded with
   | Failure error => JS.ret (Failure error)
   | Success _ =>
       let* _ := deleteFile existingFileId settings in
       JS.ret uploaded
   end)%js.

(** *** listFiles *)

(** [array.map(async (item) => ...)]: the callback runs on every element in
    order, each call up to its first [await]; a call that throws before it
    yields a rejected promise and the iteration goes on. *)
Fixpoint map_async {A B} (f : A -> JS B) (items : list A)
  : JS (list (Outcome B)) :=
  match items with
  | [] => JS.ret []
  | item :: rest =>
      (let* promise := JS.attempt (f item) in
       let* promises := map_async f rest in
       JS.ret (promise :: promises))%js
  end.

Fixpoint first_rejection {A} (promises : list (Outcome A)) : option exn :=
  match promises with
  | [] => None
  | Throw e :: _ => Some e
  | Ret _ :: rest => first_rejection rest
  end.

Fixpoint pending_of {A} (i : nat) (promises : list (Outcome A)) : list (nat * A) :=
  match promises with
  | [] => []
  | Ret a :: rest => (i, a) :: pending_of (S i) rest
  | Throw _ :: rest => pending_of (S i) rest
  end.

(** The promises settle one at a time, in the order the host chooses; the
    one that settles runs its continuation [finish] and stores the value in
    the slot of its own index. *)
Fixpoint settle {A B} (finish : A -> B) (n : nat) (pending : list (nat * A))
    (slots : list (option B)) : list (option B) :=
  match n with
  | O => slots
  | S n' =>
      let k := (arrival n' `mod` length pending)%nat in
      match pending !! k with
      | Some (i, a) =>
          settle finish n' (delete k pending) (<[i := Some (finish a)]> slots)
      | None => slots
      end
  end.

(** [await Promise.all(promises)], where every promise that is not already
    rejected is suspended at an [await] and continues with [finish]. *)
Definition Promise_all {A B} (finish : A -> B) (promises : list (Outcome A))
  : JS (list B) :=
  match first_rejection promises with
  | Some e => JS.throw e
  | None =>
      let pending := pending_of 0 promises in
      let slots := settle finish (length pending) pending
                     (replicate (length promises) None) in
      JS.ret (omap (fun slot => slot) slots)
  end.

Definition prop (item : JSON) (k : string) : JS value :=
  JS.lift (get (Some item) k).

Definition detail_request (file_id : value) (settings : Settings) : Request := {|
  req_method := "GET";
  req_url := API_BASE ++ "/files/" ++ ToString file_id;
  req_headers := authHeaders (apiKey settings) [];
  req_body := None
|}.

Definition list_request (settings : Settings) : Request := {|
  req_method := "GET";
  req_url := API_BASE ++ "/vector_stores/" ++ vectorStoreId settings ++ "/files?limit=100";
  req_headers := authHeaders (apiKey settings) [];
  req_body := None
|}.

(** The callback of [listFiles] up to its [await fetch(...)]: the file built
    from the association, and the detail request, sent. *)
Definition start_item (settings : Settings) (item : JSON)
  : JS (KnowledgeFile * Outcome Response) :=
  (let* id := prop item "id" in
   let* filename := prop item "filename" in
   let* file_id := prop item "file_id" in
   let* usage_bytes := prop item "usage_bytes" in
   let* status := prop item "status" in
   let* created_at := prop item "created_at" in
   let* created_at := coalesce_with created_at Date_now_value in
   let* metadata := prop item "metadata" in
   let file := {|
     kf_id := id;
     kf_filename := filename ?? file_id ?? id;
     kf_bytes := usage_bytes ?? Some (JNum 0);
     kf_status := status ?? Some (JStr "unknown");
     kf_created_at := created_at;
     kf_metadata := metadata ?? Some (JObj [])
   |} in
   let* detailRes := JS.attempt (fetch (detail_request (file_id ?? id) settings)) in
   JS.ret (file, detailRes))%js.

(** The rest of the callback, from the settled detail request on: the body
    of the [try] and its empty [catch], then [return file]. *)
Definition finish_item (started : KnowledgeFile * Outcome Response) : KnowledgeFile :=
  let (file, settled) := started in
  match (let! detailRes := settled in
         if ok detailRes then
           let! detail := Response_json detailRes in
           let! filename := get (Some detail) "filename" in
           let! bytes := get (Some detail) "bytes" in
           let! metadata := get (Some detail) "metadata" in
           let! created_at := get (Some detail) "created_at" in
           Ret {|
             kf_id := kf_id file;
             kf_filename := filename ?? kf_filename file;
             kf_bytes := bytes ?? kf_bytes file;
             kf_status := kf_status file;
             kf_created_at := created_at ?? kf_created_at file;
             kf_metadata := metadata ?? kf_metadata file
           |}
         else Ret file)%outcome
  with
  | Ret enriched => enriched
  | Throw _ => file
  end.

Definition listFiles (settings : Settings) : JS (ApiResult (list KnowledgeFile)) :=
  guarded settings
    (let* res := fetch (list_request settings) in
     let* parsed := JS.lift (handleResponse res) in
     match parsed with
     | Failure error => JS.ret (Failure error)
     | Success parsed_data =>
         let* data := JS.lift (get (Some parsed_data) "data") in
         match data with
         | Some (JArr entries) =>
             let* promises := map_async (start_item settings) entries in
             let* items := Promise_all finish_item promises in
             JS.ret (Success items)
         | _ => JS.throw TypeError
         end
     end)%js.

(** *** toText and askQuestion *)

Definition newline : string := String "010"%char EmptyString.

(** [typeof value.k === "string"], with the string *)
Definition string_prop (k : string) (props : list (string * JSON)) : option string :=
  match assoc k props with
  | Some (JStr s) => Some s
  | _ => None
  end.

(** [try { return JSON.stringify(value) } catch { return "[unreadable
    content]" }]; serializing what [JSON.parse] produced does not throw. *)
Definition stringify_or_unreadable (value : JSON) : string :=
  match Ret (JSON_stringify value) with
  | Ret s => s
  | Throw _ => "[unreadable content]"
  end.

Fixpoint toText_json (value : JSON) : string :=
  match value with
  | JNull => ""
  | JStr s => s
  | JNum n => Number_toString n
  | JBool b => Boolean_toString b
  | JArr items => String.concat newline (map toText_json items)
  | JObj props =>
      match string_prop "text" props with
      | Some s => s
      | None =>
      match string_prop "output_text" props with
      | Some s => s
      | None =>
      match string_prop "summary" props with
      | Some s => s
      | None =>
          (fix content (ps : list (string * JSON)) : string :=
             match ps with
             | [] => stringify_or_unreadable value
             | (k, x) :: rest =>
                 if String.eqb k "content" then toText_json x else content rest
             end) props
      end end end
  end.

Definition toText (value : value) : string :=
  match value with
  | None => ""
  | Some j => toText_json j
  end.

(** [entries.find((entry) => entry.type === t)] *)
Fixpoint find_type (t : string) (entries : list JSON) : Outcome value :=
  match entries with
  | [] => Ret undefined
  | entry :: rest =>
      (let! type := get (Some entry) "type" in
       if is_str type t then Ret (Some entry) else find_type t rest)%outcome
  end.

Definition role_name (r : Role) : string :=
  match r with
  | user => "user"
  | assistant => "assistant"
  | system => "system"
  end.

Definition text_block (type text : string) : JSON :=
  JObj [("type", JStr type); ("text", JStr text)].

Definition input_message (m : ChatMessage) : JSON :=
  JObj [("role", JStr (role_name (role m)));
        ("content",
         JArr [text_block
                 (match role m with assistant => "output_text" | _ => "input_text" end)
                 (content m)])].

Definition payload (question : string) (chatHistory : list ChatMessage)
    (settings : Settings) : JSON :=
  JObj [("model", JStr (or_else (model settings) "gpt-4o-mini"));
        ("input",
         JArr (map input_message chatHistory ++
               [JObj [("role", JStr "user");
                      ("content", JArr [text_block "input_text" question])]]));
        ("tools",
         JArr [JObj [("type", JStr "file_search");
                     ("vector_store_ids", JArr [JStr (vectorStoreId settings)])]])].

(** From [const outputArray = ...] to [const content = ...]: the text of a
    parsed response body. *)
Definition unwrap (data : JSON) : Outcome string :=
  (let! output := get (Some data) "output" in
   let outputArray := match output with Some (JArr entries) => entries | _ => [] end in
   let! messageBlock := find_type "message" outputArray in
   let! block_content := opt_get messageBlock "content" in
   let! messageContent :=
     match block_content with
     | Some (JArr cs) =>
         let! c := find_type "output_text" cs in
         Ret (c ?? head cs)
     | _ => Ret undefined
     end in
   let! outputEntry :=
     if negb (nullish messageContent) then Ret messageContent
     else
       let! entry := find_type "output_text" outputArray in
       if negb (nullish entry) then Ret entry
       else
         let! output_text := get (Some data) "output_text" in
         if negb (nullish output_text) then Ret output_text
         else get (Some data) "output" in
   let! output_text := get (Some data) "output_text" in
   let! response := get (Some data) "response" in
   let! result := get (Some data) "result" in
   let! text := get (Some data) "text" in
   let rawContent :=
     or_else (toText outputEntry)
       (or_else (toText output_text)
          (or_else (toText response)
             (or_else (toText result)
                (or_else (toText text) "No response")))) in
   Ret rawContent)%outcome.

Definition responses_request (question : string) (chatHistory : list ChatMessage)
    (settings : Settings) : Request := {|
  req_method := "POST";
  req_url := API_BASE ++ "/responses";
  req_headers :=
    authHeaders (apiKey settings)
      [("Content-Type", "application/json"); ("OpenAI-Beta", "assistants=v2")];
  req_body := Some (BodyText (JSON_stringify (payload question chatHistory settings)))
|}.

Definition askQuestion (question : string) (chatHistory : list ChatMessage)
    (settings : Settings) : JS (ApiResult ChatMessage) :=
  if negb (truthy (trim question)) then
    JS.ret (Failure (Some (JStr "Question is empty")))
  else
    guarded settings
      (let* res := fetch (responses_request question chatHistory settings) in
       let* parsed := JS.lift (handleResponse res) in
       match parsed with
       | Failure error => JS.ret (Failure error)
       | Success data =>
           let* content := JS.lift (unwrap data) in
           let* id := JS.lift (get (Some data) "id") in
           let* id :=
             coalesce_with id
               (let* uuid := crypto_randomUUID in JS.ret (Some (JStr uuid))) in
           let* createdAt := now in
           JS.ret (Success {|
             msg_id := id;
             role := assistant;
             content := content;
             createdAt := createdAt
           |})
       end)%js.

End Client.

Arguments Success {T} data.
Arguments Failure {T} error.

(** ** toText on a call stack *)

(** [array.map(f)] where [f] may throw: the first throw ends the iteration. *)
Fixpoint map_outcome {A B} (f : A -> Outcome B) (items : list A)
  : Outcome (list B) :=
  match items with
  | [] => Ret []
  | item :: rest =>
      (let! b := f item in
       let! bs := map_outcome f rest in
       Ret (b :: bs))%outcome
  end.

Section Stack.
Context {host : Host}.

(** [toText] run where the call stack has room for [frames] nested calls of
    it: every call takes one, a call that finds none throws [RangeError].
    The recursive calls of the source, in [value.map((v) => toText(v))] and
    in [toText(value.content)], are outside its [try]. *)
Fixpoint toText_within (frames : nat) (value : JSON) : Outcome string :=
  match frames with
  | O => Throw RangeError
  | S room =>
      match value with
      | JNull => Ret ""
      | JStr s => Ret s
      | JNum n => Ret (Number_toString n)
      | JBool b => Ret (Boolean_toString b)
      | JArr items =>
          (let! texts := map_outcome (toText_within room) items in
           Ret (String.concat newline texts))%outcome
      | JObj props =>
          match string_prop "text" props with
          | Some s => Ret s
          | None =>
          match string_prop "output_text" props with
          | Some s => Ret s
          | None =>
          match string_prop "summary" props with
          | Some s => Ret s
          | None =>
          match assoc "content" props with
          | Some inner => toText_within room inner
          | None => Ret (stringify_or_unreadable value)
          end end end end
      end
  end.

(** [toText(v)] called where the stack has room for [frames] nested calls. *)
Definition toText_call (frames : nat) (v : value) : Outcome string :=
  match v with
  | Some j => toText_within frames j
  | None =>
      match frames with
      | O => Throw RangeError
      | S _ => Ret ""
      end
  end.

(** [a || b] on strings, [b] evaluated only when [a] is the empty string. *)
Definition or_else_lazy (a b : Outcome string) : Outcome string :=
  (let! s := a in if truthy s then Ret s else b)%outcome.

(** [const outputEntry = ...] of [askQuestion], with what it needs of the
    lines before it. *)
Definition select_entry (data : JSON) : Outcome value :=
  (let! output := get (Some data) "output" in
   let outputArray := match output with Some (JArr entries) => entries | _ => [] end in
   let! messageBlock := find_type "message" outputArray in
   let! block_content := opt_get messageBlock "content" in
   let! messageContent :=
     match block_content with
     | Some (JArr cs) =>
         let! c := find_type "output_text" cs in
         Ret (c ?? head cs)
     | _ => Ret undefined
     end in
   if negb (nullish messageContent) then Ret messageContent
   else
     let! entry := find_type "output_text" outputArray in
     if negb (nullish entry) then Ret entry
     else
       let! output_text := get (Some data) "output_text" in
       if negb (nullish output_text) then Ret output_text
       else get (Some data) "output")%outcome.

(** From [const outputArray = ...] to [const content = ...] where the
    stack has room for [frames] nested calls of [toText]: the calls of
    [toText] are made one after the other, each only when the ones before
    it gave the empty string, and one that throws ends the run. *)
Definition unwrap_within (frames : nat) (data : JSON) : Outcome string :=
  (let! outputEntry := select_entry data in
   or_else_lazy (toText_call frames outputEntry)
     (or_else_lazy
        (let! output_text := get (Some data) "output_text" in
         toText_call frames output_text)
        (or_else_lazy
           (let! response := get (Some data) "response" in
            toText_call frames response)
           (or_else_lazy
              (let! result := get (Some data) "result" in
               toText_call frames result)
              (or_else_lazy
                 (let! text := get (Some data) "text" in
                  toText_call frames text)
                 (Ret "No response"))))))%outcome.

(** [askQuestion] with its calls of [toText] made on a stack that has room
    for [frames] nested calls. *)
Definition askQuestion_within (frames : nat) (question : string)
    (chatHistory : list ChatMessage) (settings : Settings)
  : JS (ApiResult ChatMessage) :=
  if negb (truthy (trim question)) then
    JS.ret (Failure (Some (JStr "Question is empty")))
  else
    guarded settings
      (let* res := fetch (responses_request question chatHistory settings) in
       let* parsed := JS.lift (handleResponse res) in
       match parsed with
       | Failure error => JS.ret (Failure error)
       | Success data =>
           let* content := JS.lift (unwrap_within frames data) in
           let* id := JS.lift (get (Some data) "id") in
           let* id :=
             coalesce_with id
               (let* uuid := crypto_randomUUID in JS.ret (Some (JStr uuid))) in
           let* createdAt := now in
           JS.ret (Success {|
             msg_id := id;
             role := assistant;
             content := content;
             createdAt := createdAt
           |})
       end)%js.

End Stack.

(** How many nested calls of [toText] a value leads to, the first one not
    counted. *)
Fixpoint toText_depth (value : JSON) : nat :=
  match value with
  | JArr items => S (foldr Nat.max 0%nat (map toText_depth items))
  | JObj props =>
      match string_prop "text" props with
      | Some _ => 0
      | None =>
      match string_prop "output_text" props with
      | Some _ => 0
      | None =>
      match string_prop "summary" props with
      | Some _ => 0
      | None =>
          (fix content (ps : list (string * JSON)) : nat :=
             match ps with
             | [] => 0
             | (k, x) :: rest =>
                 if String.eqb k "content" then S (toText_depth x) else content rest
             end) props
      end end end
  | _ => 0
  end%nat.

(** How deep the arrays and objects of a value are nested. *)
Fixpoint nesting (value : JSON) : nat :=
  match value with
  | JArr items => S (foldr Nat.max 0%nat (map nesting items))
  | JObj props => S (foldr Nat.max 0%nat (map (fun '(_, x) => nesting x) props))
  | _ => 0%nat
  end.

(** The stack has room for the calls of [toText] that [v] leads to. *)
Definition fits (frames : nat) (v : value) : Prop :=
  match v with
  | Some j => (toText_depth j < frames)%nat
  | None => (0 < frames)%nat
  end.


(** ** src/lib/storage.ts *)

(** What the page takes from the browser besides the [Host] of the client:
    [JSON.parse], which throws on text that is not JSON, the answer the user
    gives to [window.confirm], and [Date.prototype.toLocaleString] as a
    function of the time value in milliseconds. *)
Class Window : Type := {
  JSON_parse : string -> Outcome JSON;
  confirm : string -> bool;
  Date_toLocaleString : Z -> string
}.

Definition STORAGE_KEY : string := "kb-settings".

Definition defaultSettings : Settings :=
  {| apiKey := ""; model := "gpt-5-nano"; vectorStoreId := "" |}.

(** The object [loadSettings] returns: its fields hold whatever the stored
    JSON held, a string when the data was written by [persistSettings]. *)
Record LoadedSettings : Type := {
  loaded_apiKey : value;
  loaded_model : value;
  loaded_vectorStoreId : value
}.

Definition loaded (settings : Settings) : LoadedSettings := {|
  loaded_apiKey := Some (JStr (apiKey settings));
  loaded_model := Some (JStr (model settings));
  loaded_vectorStoreId := Some (JStr (vectorStoreId settings))
|}.

(** A [Settings] object as [JSON.stringify] sees it, its keys in the order
    every object literal of the application writes them. *)
Definition settings_json (settings : Settings) : JSON :=
  JObj [("apiKey", JStr (apiKey settings));
        ("model", JStr (model settings));
        ("vectorStoreId", JStr (vectorStoreId settings))].

Section Storage.
Context {host : Host} {window : Window}.

(** [localStorage] is [None] where there is no [window]. *)
Definition loadSettings (localStorage : option (gmap string string))
  : LoadedSettings :=
  match localStorage with
  | None => loaded defaultSettings
  | Some items =>
      match items !! STORAGE_KEY with
      | None => loaded defaultSettings
      | Some raw =>
          if negb (truthy raw) then loaded defaultSettings
          else
            match (let! parsed := JSON_parse raw in
                   let! parsed_apiKey := get (Some parsed) "apiKey" in
                   let! parsed_model := get (Some parsed) "model" in
                   let! parsed_vectorStoreId := get (Some parsed) "vectorStoreId" in
                   Ret {|
                     loaded_apiKey := parsed_apiKey ?? Some (JStr "");
                     loaded_model :=
                       parsed_model ?? Some (JStr (model defaultSettings));
                     loaded_vectorStoreId := parsed_vectorStoreId ?? Some (JStr "")
                   |})%outcome
            with
            | Ret settings => settings
            | Throw _ => loaded defaultSettings
            end
      end
  end.

Definition persistSettings (settings : Settings)
    (localStorage : option (gmap string string)) : option (gmap string string) :=
  match localStorage with
  | None => None
  | Some items =>
      Some (<[STORAGE_KEY := JSON_stringify (settings_json settings)]> items)
  end.

End Storage.

(** ** src/utils/format.ts *)

Section Format.
Context {window : Window}.

(** [formatDate] on an integer timestamp: [new Date(ms).toLocaleString()]. *)
Definition formatDate (timestamp : Z) : string :=
  Date_toLocaleString
    (timestamp * (if timestamp <? 10000000000 then 1000 else 1)).

End Format.

(** ** src/App.tsx: the handlers of [App] *)

Inductive View : Type := kb | config.

(** The state of the [App] component, one field for each [useState]. *)
Record AppState : Type := {
  st_settings : Settings;
  st_view : View;
  st_files : list KnowledgeFile;
  st_filesLoading : bool;
  st_uploading : bool;
  st_error : value;
  st_toast : value;
  st_chatOpen : bool;
  st_chatMessages : list ChatMessage;
  st_chatSending : bool
}.

Definition null : value := Some JNull.

Definition setSettings (next : Settings) (st : AppState) : AppState :=
  {| st_settings := next; st_view := st_view st; st_files := st_files st;
     st_filesLoading := st_filesLoading st; st_uploading := st_uploading st;
     st_error := st_error st; st_toast := st_toast st;
     st_chatOpen := st_chatOpen st; st_chatMessages := st_chatMessages st;
     st_chatSending := st_chatSending st |}.

Definition setView (next : View) (st : AppState) : AppState :=
  {| st_settings := st_settings st; st_view := next; st_files := st_files st;
     st_filesLoading := st_filesLoading st; st_uploading := st_uploading st;
     st_error := st_error st; st_toast := st_toast st;
     st_chatOpen := st_chatOpen st; st_chatMessages := st_chatMessages st;
     st_chatSending := st_chatSending st |}.

(** [setFiles((prev) => update prev)] *)
Definition setFiles (update : list KnowledgeFile -> list KnowledgeFile)
    (st : AppState) : AppState :=
  {| st_settings := st_settings st; st_view := st_view st;
     st_files := update (st_files st);
     st_filesLoading := st_filesLoading st; st_uploading := st_uploading st;
     st_error := st_error st; st_toast := st_toast st;
     st_chatOpen := st_chatOpen st; st_chatMessages := st_chatMessages st;
     st_chatSending := st_chatSending st |}.

Definition setFilesLoading (next : bool) (st : AppState) : AppState :=
  {| st_settings := st_settings st; st_view := st_view st; st_files := st_files st;
     st_filesLoading := next; st_uploading := st_uploading st;
     st_error := st_error st; st_toast := st_toast st;
     st_chatOpen := st_chatOpen st; st_chatMessages := st_chatMessages st;
     st_chatSending := st_chatSending st |}.

Definition setUploading (next : bool) (st : AppState) : AppState :=
  {| st_settings := st_settings st; st_view := st_view st; st_files := st_files st;
     st_filesLoading := st_filesLoading st; st_uploading := next;
     st_error := st_error st; st_toast := st_toast st;
     st_chatOpen := st_chatOpen st; st_chatMessages := st_chatMessages st;
     st_chatSending := st_chatSending st |}.

Definition setError (next : value) (st : AppState) : AppState :=
  {| st_settings := st_settings st; st_view := st_view st; st_files := st_files st;
     st_filesLoading := st_filesLoading st; st_uploading := st_uploading st;
     st_error := next; st_toast := st_toast st;
     st_chatOpen := st_chatOpen st; st_chatMessages := st_chatMessages st;
     st_chatSending := st_chatSending st |}.

Definition setToast (next : value) (st : AppState) : AppState :=
  {| st_settings := st_settings st; st_view := st_view st; st_files := st_files st;
     st_filesLoading := st_filesLoading st; st_uploading := st_uploading st;
     st_error := st_error st; st_toast := next;
     st_chatOpen := st_chatOpen st; st_chatMessages := st_chatMessages st;
     st_chatSending := st_chatSending st |}.

(** [setChatMessages((prev) => update prev)] *)
Definition setChatMessages (update : list ChatMessage -> list ChatMessage)
    (st : AppState) : AppState :=
  {| st_settings := st_settings st; st_view := st_view st; st_files := st_files st;
     st_filesLoading := st_filesLoading st; st_uploading := st_uploading st;
     st_error := st_error st; st_toast := st_toast st;
     st_chatOpen := st_chatOpen st;
     st_chatMessages := update (st_chatMessages st);
     st_chatSending := st_chatSending st |}.

Definition setChatSending (next : bool) (st : AppState) : AppState :=
  {| st_settings := st_settings st; st_view := st_view st; st_files := st_files st;
     st_filesLoading := st_filesLoading st; st_uploading := st_uploading st;
     st_error := st_error st; st_toast := st_toast st;
     st_chatOpen := st_chatOpen st; st_chatMessages := st_chatMessages st;
     st_chatSending := next |}.

(** One run of a handler, alone: it starts from the state of the render it
    was created in, applies its updates in order, and what it has set stays
    set when a call it awaits throws. *)
Definition UI (A : Type) : Type :=
  AppState -> World -> Outcome A * AppState * World.

Module UI.

Definition ret {A} (a : A) : UI A := fun st w => (Ret a, st, w).

Definition bind {A B} (m : UI A) (k : A -> UI B) : UI B :=
  fun st w =>
    match m st w with
    | (Ret a, st', w') => k a st' w'
    | (Throw e, st', w') => (Throw e, st', w')
    end.

(** The values the handler closed over. *)
Definition render : UI AppState := fun st w => (Ret st, st, w).

(** A call of one of the setters. *)
Definition set (update : AppState -> AppState) : UI unit :=
  fun st w => (Ret tt, update st, w).

(** [await m] for an operation of the client, or a call of the host. *)
Definition call {A} (m : JS A) : UI A :=
  fun st w => let (o, w') := m w in (o, st, w').

End UI.

Declare Scope ui_scope.
Delimit Scope ui_scope with ui.
Notation "'let+' x ':=' m 'in' k" := (UI.bind m (fun x => k))
  (at level 10, x name, m at level 100, k at level 200) : ui_scope.
Notation "m ';;' k" := (UI.bind m (fun _ => k))
  (at level 100, k at level 200, right associativity) : ui_scope.

(** [Boolean(settings.apiKey && settings.vectorStoreId)] *)
Definition ready (settings : Settings) : bool :=
  truthy (apiKey settings) && truthy (vectorStoreId settings).

Definition str (s : string) : value := Some (JStr s).

Section App.
Context {host : Host} {window : Window}.

Definition refreshFiles : UI unit :=
  (let+ app := UI.render in
   if negb (ready (st_settings app)) then
     UI.set (setError (str "Add an API key and vector store to start."))
   else
     UI.set (setFilesLoading true) ;;
     UI.set (setError null) ;;
     let+ result := UI.call (listFiles (st_settings app)) in
     UI.set (setFilesLoading false) ;;
     match result with
     | Failure error => UI.set (setError error)
     | Success data => UI.set (setFiles (fun _ => data))
     end)%ui.

(** The settings and the storage after [handleSettingsSave(next)]. *)
Definition handleSettingsSave (next : Settings)
    (st : AppState) (localStorage : option (gmap string string))
  : AppState * option (gmap string string) :=
  let st := setSettings next st in
  let localStorage := persistSettings next localStorage in
  let st := setToast (str "Settings saved locally.") st in
  let st := setView kb st in
  (st, localStorage).

Definition handleUpload (file : File) : UI unit :=
  (let+ app := UI.render in
   if negb (ready (st_settings app)) then
     UI.set (setError (str "Add API key and vector store first."))
   else
     UI.set (setUploading true) ;;
     UI.set (setError null) ;;
     let+ result := UI.call (uploadFile file (st_settings app)) in
     UI.set (setUploading false) ;;
     match result with
     | Failure error => UI.set (setError error)
     | Success data =>
         UI.set (setToast (str ("Uploaded " ++ file_name file))) ;;
         UI.set (setFiles (fun prev => data :: prev))
     end)%ui.

(** [f.id !== fileId] *)
Definition other_id (fileId : string) (f : KnowledgeFile) : bool :=
  negb (is_str (kf_id f) fileId).

Definition handleReplace (existingFileId : string) (nextFile : File) : UI unit :=
  (let+ app := UI.render in
   if negb (ready (st_settings app)) then
     UI.set (setError (str "Add API key and vector store first."))
   else
     UI.set (setUploading true) ;;
     let+ result :=
       UI.call (replaceFile existingFileId nextFile (st_settings app)) in
     UI.set (setUploading false) ;;
     match result with
     | Failure error => UI.set (setError error)
     | Success data =>
         UI.set (setFiles (fun prev => data :: filter (other_id existingFileId) prev)) ;;
         UI.set (setToast (str ("Updated " ++ file_name nextFile)))
     end)%ui.

Definition handleDelete (fileId : string) : UI unit :=
  (let+ app := UI.render in
   if negb (ready (st_settings app)) then
     UI.set (setError (str "Add API key and vector store first."))
   else if negb (confirm "Delete this file from the vector store?") then
     UI.ret tt
   else
     let+ result := UI.call (deleteFile fileId (st_settings app)) in
     match result with
     | Failure error => UI.set (setError error)
     | Success _ =>
         UI.set (setFiles (fun prev => filter (other_id fileId) prev)) ;;
         UI.set (setToast (str "File deleted."))
     end)%ui.

Definition handleAsk (question : string) : UI unit :=
  (let+ app := UI.render in
   if negb (ready (st_settings app)) then
     UI.set (setError (str "Add API key and vector store first."))
   else
     let trimmed := trim question in
     if negb (truthy trimmed) then UI.ret tt
     else
       let+ id := UI.call crypto_randomUUID in
       let+ createdAt := UI.call now in
       let userMessage := {|
         msg_id := str id; role := user; content := trimmed; createdAt := createdAt
       |} in
       UI.set (setChatMessages (fun prev => (prev ++ [userMessage])%list)) ;;
       UI.set (setChatSending true) ;;
       let+ result :=
         UI.call (askQuestion trimmed (st_chatMessages app ++ [userMessage])%list
                    (st_settings app)) in
       UI.set (setChatSending false) ;;
       match result with
       | Failure error => UI.set (setError error)
       | Success data => UI.set (setChatMessages (fun prev => (prev ++ [data])%list))
       end)%ui.

End App.

(** * Properties *)

(** ** Sample hosts and inputs *)

(** A service that answers every request with the same response. *)
Definition constant_host (res : Response) : Host := {|
  remote := fun _ _ => Responded res;
  Date_now := fun n => 1700000000000 + Z.of_nat n;
  randomUUID := fun _ => "00000000-0000-4000-8000-000000000000";
  JSON_stringify := fun _ => "{}";
  arrival := fun n => n
|}.

Definition response (status : Z) (statusText : string) (json : option JSON) : Response :=
  {| res_status := status; res_statusText := statusText; res_json := json |}.

Definition fresh : World := {| sent := []; ticks := 0 |}.

Definition sample_settings : Settings :=
  {| apiKey := "sk-test"; model := "gpt-5-nano"; vectorStoreId := "vs_1" |}.

(** A key, and no store yet: the state in which a store gets created. *)
Definition settings_without_store : Settings :=
  {| apiKey := "sk-test"; model := "gpt-5-nano"; vectorStoreId := "" |}.

Definition bad_key_body : JSON :=
  JObj [("error", JObj [("message", JStr "bad key")])].

Definition new_store_body : JSON :=
  JObj [("id", JStr "vs_1"); ("name", JStr "docs")].

(** The three response bodies of the unwrapping test vectors. *)
Definition paris_body : JSON :=
  JObj [("output",
         JArr [JObj [("type", JStr "message");
                     ("content",
                      JArr [JObj [("type", JStr "output_text");
                                  ("text", JStr "Paris")]])]])].

Definition lyon_body : JSON := JObj [("output_text", JStr "Lyon")].

Definition foo_body : JSON := JObj [("foo", JNum 1)].

(** A listing of two associations; every later request is rejected. *)
Definition listing_body : JSON :=
  JObj [("data",
         JArr [JObj [("id", JStr "vsf_1"); ("file_id", JStr "file_1");
                     ("status", JStr "completed")];
               JObj [("id", JStr "vsf_2"); ("filename", JStr "notes.txt")]])].

Definition listing_host : Host := {|
  remote := fun log _ =>
    match log with
    | [] => Responded (response 200 "OK" (Some listing_body))
    | _ => Rejected TypeError
    end;
  Date_now := fun n => 1700000000000 + Z.of_nat n;
  randomUUID := fun _ => "00000000-0000-4000-8000-000000000000";
  JSON_stringify := fun _ => "{}";
  arrival := fun n => S n
|}.

(** Uploads and attachments succeed, deletions are refused. *)
Definition refusing_delete_host : Host := {|
  remote := fun _ req =>
    if String.eqb (req_method req) "DELETE" then
      Responded (response 500 "Internal Server Error" None)
    else Responded (response 200 "OK" (Some (JObj [("id", JStr "file_1")])));
  Date_now := fun n => 1700000000000 + Z.of_nat n;
  randomUUID := fun _ => "00000000-0000-4000-8000-000000000000";
  JSON_stringify := fun _ => "{}";
  arrival := fun n => n
|}.

(** A service that is unreachable: every [fetch] is rejected. *)
Definition unreachable_host : Host := {|
  remote := fun _ _ => Rejected TypeError;
  Date_now := fun n => 1700000000000 + Z.of_nat n;
  randomUUID := fun _ => "00000000-0000-4000-8000-000000000000";
  JSON_stringify := fun _ => "{}";
  arrival := fun n => n
|}.

(** Uploads and attachments succeed, and so does a deletion, which the
    service answers with [204 No Content] and no body. *)
Definition no_content_delete_host : Host := {|
  remote := fun _ req =>
    if String.eqb (req_method req) "DELETE" then
      Responded (response 204 "No Content" None)
    else Responded (response 200 "OK" (Some (JObj [("id", JStr "file_1")])));
  Date_now := fun n => 1700000000000 + Z.of_nat n;
  randomUUID := fun _ => "00000000-0000-4000-8000-000000000000";
  JSON_stringify := fun _ => "{}";
  arrival := fun n => n
|}.

(** Uploads and attachments succeed; the connection is lost before the
    deletion, whose [fetch] is rejected. *)
Definition lost_delete_host : Host := {|
  remote := fun _ req =>
    if String.eqb (req_method req) "DELETE" then Rejected TypeError
    else Responded (response 200 "OK" (Some (JObj [("id", JStr "file_1")])));
  Date_now := fun n => 1700000000000 + Z.of_nat n;
  randomUUID := fun _ => "00000000-0000-4000-8000-000000000000";
  JSON_stringify := fun _ => "{}";
  arrival := fun n => n
|}.

(** A listing whose first entry is [null]. *)
Definition null_entry_body : JSON :=
  JObj [("data", JArr [JNull; JObj [("id", JStr "vsf_1")]])].

Definition sample_file : File :=
  {| file_name := "notes.txt"; file_size := 12; file_content := "hello, world" |}.

Fixpoint all_white_space (s : string) : bool :=
  match s with
  | EmptyString => true
  | String c rest => is_white_space c && all_white_space rest
  end.

(** The same host, its promises settling in another order. *)
Definition with_arrival (order : nat -> nat) (h : Host) : Host := {|
  remote := @remote h;
  Date_now := @Date_now h;
  randomUUID := @randomUUID h;
  JSON_stringify := @JSON_stringify h;
  arrival := order
|}.

(** ** What an operation sends *)

(** Whatever [m] returns or throws, it leaves the requests already in the
    log in place and adds requests that satisfy [P]. *)
Definition sends {A} (P : list Request -> Prop) (m : JS A) : Prop :=
  forall w o w', m w = (o, w') -> exists new, sent w' = (sent w ++ new)%list /\ P new.

Definition at_most (n : nat) (new : list Request) : Prop :=
  (length new <= n)%nat.

(** The request carries the bearer credential made from the key. *)
Definition authorized (settings : Settings) (req : Request) : Prop :=
  assoc "Authorization" (req_headers req) = Some ("Bearer " ++ apiKey settings).

(** [item.k] where [item] is not [null]. *)
Definition own (item : JSON) (k : string) : value :=
  match item with
  | JObj props => assoc k props
  | _ => undefined
  end.



(** Neither the [output] array of a response body nor the [content] array
    of one of its entries holds a [null]. *)
Definition no_null_content (entry : JSON) : Prop :=
  entry <> JNull /\
  match own entry "content" with
  | Some (JArr cs) => Forall (fun c => c <> JNull) cs
  | _ => True
  end.

Definition no_null_output (props : list (string * JSON)) : Prop :=
  match assoc "output" props with
  | Some (JArr entries) => Forall no_null_content entries
  | _ => True
  end.

(** A browser that parses every stored text to the same value. *)
Definition constant_window (parsed : Outcome JSON) (answer : bool) : Window := {|
  JSON_parse := fun _ => parsed;
  confirm := fun _ => answer;
  Date_toLocaleString := fun ms => Number_toString ms
|}.

Definition sample_app : AppState := {|
  st_settings := sample_settings;
  st_view := kb;
  st_files :=
    [{| kf_id := Some (JStr "vsf_0"); kf_filename := Some (JStr "old.txt");
        kf_bytes := Some (JNum 3); kf_status := Some (JStr "completed");
        kf_created_at := Some (JNum 1700000000); kf_metadata := Some (JObj []) |};
     {| kf_id := Some (JStr "vsf_9"); kf_filename := Some (JStr "other.txt");
        kf_bytes := Some (JNum 4); kf_status := Some (JStr "completed");
        kf_created_at := Some (JNum 1700000001); kf_metadata := Some (JObj []) |}];
  st_filesLoading := false;
  st_uploading := false;
  st_error := Some JNull;
  st_toast := Some JNull;
  st_chatOpen := false;
  st_chatMessages := [];
  st_chatSending := false
|}.

Section Statements.
Context {host : Host}.

(** [file] is what the callback of [listFiles] returns for [item]: the file
    it builds from the association, continued with the settled detail
    request. *)
Definition derived (settings : Settings) (item : JSON) (file : KnowledgeFile) : Prop :=
  exists w1 w2 started,
    start_item settings item w1 = (Ret started, w2) /\ file = finish_item started.

(** The detail request was rejected, or answered outside 2xx, or answered
    with a body that is not JSON. *)
Definition detail_failed (settled : Outcome Response) : Prop :=
  match settled with
  | Throw _ => True
  | Ret res => ok res = false \/ res_json res = None
  end.

(** Each of the five guarded operations returns the failure [missing] and
    leaves the world as it was. *)
Definition fail_fast_with (missing : string) (settings : Settings) (w : World)
  : Prop :=
  listFiles settings w = (Ret (Failure (str missing)), w) /\
  (forall file, uploadFile file settings w = (Ret (Failure (str missing)), w)) /\
  (forall id file,
      replaceFile id file settings w = (Ret (Failure (str missing)), w)) /\
  (forall id, deleteFile id settings w = (Ret (Failure (str missing)), w)) /\
  (forall question chatHistory,
      truthy (trim question) = true ->
      askQuestion question chatHistory settings w
      = (Ret (Failure (str missing)), w)).

End Statements.

Section Properties.
Context {host : Host}.

(** ** Strings *)

Lemma trim_start_blank (s : string) :
  all_white_space s = true -> trim_start s = "".
Proof.
  induction s as [|c s IH]; simpl; [reflexivity|].
  intros [Hc Hs]%andb_true_iff. rewrite Hc. auto.
Qed.

Lemma trim_blank (s : string) :
  all_white_space s = true -> trim s = "".
Proof.
  intros Hs. unfold trim. rewrite (trim_start_blank s Hs). reflexivity.
Qed.

Lemma truthy_false (s : string) : truthy s = false <-> s = "".
Proof. destruct s; simpl; split; congruence. Qed.

Example trim_sample : trim "  a b  " = "a b".
Proof. reflexivity. Qed.

Example ToString_sample :
  ToString (Some (JArr [JNum 1; JNull; JStr "x"])) = "1,,x".
Proof. reflexivity. Qed.

Example toText_sample :
  toText (Some (JArr [JObj [("content", JObj [("text", JStr "a")])]; JBool true]))
  = "a" ++ newline ++ "true".
Proof. reflexivity. Qed.

(** ** The settings guard *)

Lemma ensureSettings_ok (settings : Settings) :
  truthy (apiKey settings) = true ->
  truthy (vectorStoreId settings) = true ->
  ensureSettings settings = Ret tt.
Proof. unfold ensureSettings. intros -> ->. reflexivity. Qed.

Lemma ensureSettings_missing (settings : Settings) :
  apiKey settings = "" \/ vectorStoreId settings = "" ->
  exists m, ensureSettings settings = Throw (Error m).
Proof.
  unfold ensureSettings. intros [H|H]; rewrite H; simpl.
  - eauto.
  - destruct (truthy (apiKey settings)); simpl; eauto.
Qed.

Lemma guarded_ok {T} (settings : Settings) (rest : JS (ApiResult T)) :
  truthy (apiKey settings) = true ->
  truthy (vectorStoreId settings) = true ->
  guarded settings rest = rest.
Proof.
  intros Hk Hv. unfold guarded. rewrite ensureSettings_ok; auto.
Qed.

Lemma guarded_missing (settings : Settings) :
  apiKey settings = "" \/ vectorStoreId settings = "" ->
  exists error, forall T (rest : JS (ApiResult T)) w,
    guarded settings rest w = (Ret (Failure error), w).
Proof.
  intros [m Hm]%ensureSettings_missing. exists (Some (JStr m)).
  intros T rest w. unfold guarded. rewrite Hm. reflexivity.
Qed.

Lemma guarded_inv {T} (settings : Settings) (rest : JS (ApiResult T)) w data w' :
  guarded settings rest w = (Ret (Success data), w') ->
  ensureSettings settings = Ret tt /\ rest w = (Ret (Success data), w').
Proof.
  unfold guarded. destruct (ensureSettings settings) as [[]|e]; [auto|].
  unfold JS.ret. intros [=].
Qed.

Lemma fetch_responded (req : Request) (res : Response) w :
  remote (sent w) req = Responded res ->
  fetch req w = (Ret res, record req w).
Proof. unfold fetch. intros ->. reflexivity. Qed.

(** ** handleResponse *)

Lemma handleResponse_ok (res : Response) (body : JSON) :
  ok res = true -> res_json res = Some body ->
  handleResponse res = Ret (Success body).
Proof.
  intros Hok Hbody. unfold handleResponse, Response_json.
  rewrite Hok, Hbody. reflexivity.
Qed.

Lemma handleResponse_not_ok (res : Response) :
  ok res = false -> exists error, handleResponse res = Ret (Failure error).
Proof.
  intros Hok. unfold handleResponse. rewrite Hok. eauto.
Qed.

Lemma handleResponse_Success_inv (res : Response) (data : JSON) :
  handleResponse res = Ret (Success data) ->
  ok res = true /\ res_json res = Some data.
Proof.
  unfold handleResponse, Response_json.
  destruct (ok res); [|intros [=]].
  destruct (res_json res); simpl; intros [=]; subst; auto.
Qed.

(** C7. For a response that is not 2xx: when the body parses to an object
    whose [error] is an object with a string [message], the failure carries
    that message; when the body does not parse, the failure carries the
    status, a space and the status text. *)
Theorem handleResponse_error_message (res : Response) :
  ok res = false ->
  (forall props error_props m,
      res_json res = Some (JObj props) ->
      assoc "error" props = Some (JObj error_props) ->
      assoc "message" error_props = Some (JStr m) ->
      handleResponse res = Ret (Failure (Some (JStr m)))) /\
  (res_json res = None ->
   handleResponse res =
     Ret (Failure (Some (JStr (Number_toString (res_status res) ++ " "
                               ++ res_statusText res))))).
Proof.
  intros Hok. unfold handleResponse, Response_json. rewrite Hok. split.
  - intros props error_props m -> Herr Hmsg. simpl.
    rewrite Herr. simpl. rewrite Hmsg. reflexivity.
  - intros ->. reflexivity.
Qed.

(** ** toText *)

Lemma toText_string (s : string) : toText (Some (JStr s)) = s.
Proof. reflexivity. Qed.

Lemma toText_content (value : JSON) (props : list (string * JSON)) :
  (fix content (ps : list (string * JSON)) : string :=
     match ps with
     | [] => stringify_or_unreadable value
     | (k, x) :: rest =>
         if String.eqb k "content" then toText_json x else content rest
     end) props
  = match assoc "content" props with
    | Some inner => toText_json inner
    | None => stringify_or_unreadable value
    end.
Proof.
  induction props as [|[k x] props IH]; simpl; [reflexivity|].
  destruct (String.eqb k "content"); [reflexivity|exact IH].
Qed.

Lemma toText_depth_content (props : list (string * JSON)) :
  (fix content (ps : list (string * JSON)) : nat :=
     match ps with
     | [] => 0%nat
     | (k, x) :: rest =>
         if String.eqb k "content" then S (toText_depth x) else content rest
     end) props
  = match assoc "content" props with
    | Some inner => S (toText_depth inner)
    | None => 0%nat
    end.
Proof.
  induction props as [|[k x] props IH]; simpl; [reflexivity|].
  destruct (String.eqb k "content"); [reflexivity|exact IH].
Qed.

Lemma map_outcome_returns {A B} (f : A -> Outcome B) (g : A -> B) (items : list A) :
  Forall (fun item => f item = Ret (g item)) items ->
  map_outcome f items = Ret (map g items).
Proof.
  induction 1 as [|item items Hitem _ IH]; simpl; [reflexivity|].
  rewrite Hitem. simpl. rewrite IH. reflexivity.
Qed.

Lemma foldr_max_bound (depths : list nat) (bound : nat) :
  (foldr Nat.max 0 depths < bound)%nat -> Forall (fun d => (d < bound)%nat) depths.
Proof.
  induction depths as [|d depths IH]; simpl; intros H; constructor.
  - lia.
  - apply IH. lia.
Qed.

(** With room on the stack for more nested calls than the value leads to,
    the run returns what the recursion computes. *)
Lemma toText_within_returns (frames : nat) :
  forall value,
    (toText_depth value < frames)%nat ->
    toText_within frames value = Ret (toText_json value).
Proof.
  induction frames as [|room IH]; intros value Hdepth; [lia|].
  destruct value as [| | | |items|props]; try reflexivity.
  - simpl in Hdepth. simpl.
    rewrite (map_outcome_returns _ toText_json); [reflexivity|].
    assert (Hitems : Forall (fun d => (d < room)%nat) (map toText_depth items)).
    { apply foldr_max_bound. lia. }
    apply Forall_forall. intros item Hin. apply IH.
    rewrite Forall_forall in Hitems. apply Hitems.
    apply list_elem_of_In, in_map, list_elem_of_In. exact Hin.
  - simpl in Hdepth. simpl.
    destruct (string_prop "text" props); [reflexivity|].
    destruct (string_prop "output_text" props); [reflexivity|].
    destruct (string_prop "summary" props); [reflexivity|].
    rewrite toText_content. rewrite toText_depth_content in Hdepth.
    destruct (assoc "content" props) as [inner|]; [|reflexivity].
    apply IH. lia.
Qed.



(** ** Fail-fast preconditions *)

(** C8. A question that is empty or all white space makes [askQuestion]
    return the failure [Question is empty] and leaves the world as it was:
    nothing is sent. *)
Theorem askQuestion_blank_question
    (question : string) (chatHistory : list ChatMessage) (settings : Settings) w :
  all_white_space question = true ->
  askQuestion question chatHistory settings w =
    (Ret (Failure (Some (JStr "Question is empty"))), w).
Proof.
  intros Hq. unfold askQuestion. rewrite (trim_blank _ Hq). reflexivity.
Qed.

(** C2, as the code has it. With an empty [apiKey] or an empty
    [vectorStoreId], [listFiles], [uploadFile], [replaceFile], [deleteFile]
    and [askQuestion] return a failure and leave the world as it was;
    [createVectorStore] throws, and sends nothing, when [apiKey] is empty. *)
Theorem missing_settings_fail_fast (settings : Settings) w :
  apiKey settings = "" \/ vectorStoreId settings = "" ->
  (exists error,
      listFiles settings w = (Ret (Failure error), w) /\
      (forall file, uploadFile file settings w = (Ret (Failure error), w)) /\
      (forall id file, replaceFile id file settings w = (Ret (Failure error), w)) /\
      (forall id, deleteFile id settings w = (Ret (Failure error), w))) /\
  (forall question chatHistory, exists error,
      askQuestion question chatHistory settings w = (Ret (Failure error), w)) /\
  (apiKey settings = "" ->
   forall name, exists m,
     createVectorStore name settings w = (Throw (Error m), w)).
Proof.
  intros Hmissing.
  destruct (guarded_missing settings Hmissing) as [error Herror].
  split; [|split].
  - exists error. unfold replaceFile, JS.bind, listFiles, uploadFile, deleteFile.
    repeat split; intros; rewrite ?Herror; reflexivity.
  - intros question chatHistory. unfold askQuestion.
    destruct (truthy (trim question)); simpl; eauto.
  - intros Hkey name. unfold createVectorStore. rewrite Hkey.
    destruct (truthy (trim name)); simpl; eauto.
Qed.

(** ** Promise.all *)

Lemma settle_fills {A B} (finish : A -> B) (tasks : list A) (n : nat) :
  forall (pending : list (nat * A)) (slots : list (option B)),
    length pending = n ->
    length slots = length tasks ->
    (forall i a, (i, a) ∈ pending -> tasks !! i = Some a) ->
    (forall i a, tasks !! i = Some a ->
                 (i, a) ∈ pending \/ slots !! i = Some (Some (finish a))) ->
    settle finish n pending slots = (fun a => Some (finish a)) <$> tasks.
Proof.
  induction n as [|n IH]; intros pending slots Hlen Hslots Hsound Hdone; simpl.
  - apply nil_length_inv in Hlen. subst pending.
    apply list_eq. intros i. rewrite list_lookup_fmap.
    destruct (tasks !! i) as [a|] eqn:Hi; simpl.
    + destruct (Hdone i a Hi) as [Hin|Hslot]; [|exact Hslot].
      apply elem_of_nil in Hin. contradiction.
    + apply lookup_ge_None. rewrite Hslots. apply lookup_ge_None. exact Hi.
  - set (k := (arrival n `mod` length pending)%nat).
    assert (Hk : (k < length pending)%nat).
    { apply Nat.mod_upper_bound. rewrite Hlen. discriminate. }
    destruct (lookup_lt_is_Some_2 pending k Hk) as [[i a] Hka].
    rewrite Hka.
    assert (Hia : tasks !! i = Some a).
    { apply Hsound. apply list_elem_of_lookup. eauto. }
    assert (Hi : (i < length slots)%nat).
    { rewrite Hslots. apply lookup_lt_is_Some. eauto. }
    apply IH.
    + rewrite length_delete by eauto. rewrite Hlen. lia.
    + rewrite length_insert. exact Hslots.
    + intros j b Hj. apply Hsound. eapply list_elem_of_delete_inv. exact Hj.
    + intros j b Hjb.
      destruct (decide (j = i)) as [->|Hne].
      * right. rewrite Hia in Hjb. injection Hjb as <-.
        apply list_lookup_insert_eq. exact Hi.
      * destruct (Hdone j b Hjb) as [Hin|Hslot].
        -- left. apply list_elem_of_lookup in Hin as [k' Hk'].
           apply list_elem_of_lookup.
           destruct (decide (k' < k)%nat) as [Hlt|Hge].
           ++ exists k'. rewrite list_lookup_delete_lt by exact Hlt. exact Hk'.
           ++ destruct (decide (k' = k)) as [->|Hkk].
              ** rewrite Hka in Hk'. congruence.
              ** exists (pred k'). rewrite list_lookup_delete_ge by lia.
                 replace (S (pred k')) with k' by lia. exact Hk'.
        -- right. rewrite list_lookup_insert_ne by congruence. exact Hslot.
Qed.

Lemma first_rejection_fulfilled {A} (tasks : list A) :
  first_rejection (Ret <$> tasks) = None.
Proof. induction tasks; simpl; auto. Qed.

Lemma first_rejection_None {A} (promises : list (Outcome A)) :
  first_rejection promises = None -> exists tasks, promises = Ret <$> tasks.
Proof.
  induction promises as [|[a|e] promises IH]; simpl; intros H.
  - exists []. reflexivity.
  - destruct (IH H) as [tasks ->]. exists (a :: tasks). reflexivity.
  - discriminate H.
Qed.

Lemma pending_of_fulfilled {A} (tasks : list A) :
  forall k i a,
    (i, a) ∈ pending_of k (Ret <$> tasks) <->
    (k <= i)%nat /\ tasks !! (i - k)%nat = Some a.
Proof.
  induction tasks as [|t tasks IH]; intros k i a; simpl.
  - split; [intros H; apply elem_of_nil in H; contradiction|].
    intros [_ H]. discriminate H.
  - rewrite elem_of_cons, IH. split.
    + intros [[= -> ->]|[Hle Hlook]].
      * split; [lia|]. replace (k - k)%nat with 0%nat by lia. reflexivity.
      * split; [lia|]. replace (i - k)%nat with (S (i - S k)) by lia. exact Hlook.
    + intros [Hle Hlook]. destruct (decide (i = k)) as [->|Hne].
      * left. replace (k - k)%nat with 0%nat in Hlook by lia.
        simpl in Hlook. congruence.
      * right. split; [lia|].
        replace (i - k)%nat with (S (i - S k)) in Hlook by lia. exact Hlook.
Qed.

Lemma length_pending_of_fulfilled {A} (tasks : list A) k :
  length (pending_of k (Ret <$> tasks)) = length tasks.
Proof. revert k. induction tasks; intros k; simpl; auto. Qed.

Lemma omap_Some {A B} (f : A -> B) (l : list A) :
  omap (fun slot => slot) ((fun a => Some (f a)) <$> l) = f <$> l.
Proof. induction l; simpl; [reflexivity|]. f_equal. assumption. Qed.

(** Whatever order the promises settle in, [Promise.all] of promises none
    of which is rejected gives their values in the order of the promises. *)
Lemma Promise_all_fulfilled {A B} (finish : A -> B) (tasks : list A) w :
  Promise_all finish (Ret <$> tasks) w = (Ret (finish <$> tasks), w).
Proof.
  unfold Promise_all. rewrite first_rejection_fulfilled.
  rewrite (settle_fills finish tasks).
  - rewrite omap_Some. reflexivity.
  - reflexivity.
  - rewrite length_replicate, length_fmap. reflexivity.
  - intros i a [_ H]%pending_of_fulfilled.
    replace (i - 0)%nat with i in H by lia. exact H.
  - intros i a H. left. apply pending_of_fulfilled. split; [lia|].
    replace (i - 0)%nat with i by lia. exact H.
Qed.

Lemma Promise_all_inv {A B} (finish : A -> B) (promises : list (Outcome A))
    w values w' :
  Promise_all finish promises w = (Ret values, w') ->
  exists tasks, promises = Ret <$> tasks /\ values = finish <$> tasks /\ w' = w.
Proof.
  intros H. destruct (first_rejection promises) as [e|] eqn:Hrej.
  - unfold Promise_all in H. rewrite Hrej in H. discriminate H.
  - destruct (first_rejection_None promises Hrej) as [tasks ->].
    rewrite Promise_all_fulfilled in H. injection H as <- <-. eauto.
Qed.

(** ** listFiles *)

Lemma map_async_runs {A B} (f : A -> JS B) (items : list A) :
  forall w, exists promises w',
    map_async f items w = (Ret promises, w') /\
    Forall2 (fun item promise => exists w1 w2, f item w1 = (promise, w2))
      items promises.
Proof.
  induction items as [|item items IH]; intros w; simpl.
  - exists [], w. split; [reflexivity|constructor].
  - unfold JS.bind, JS.attempt.
    destruct (f item w) as [promise w1] eqn:Hitem.
    destruct (IH w1) as (promises & w2 & -> & Hall).
    exists (promise :: promises), w2. split; [reflexivity|].
    constructor; eauto.
Qed.

Lemma start_item_returns (settings : Settings) (item : JSON) w promise w' :
  item <> JNull ->
  start_item settings item w = (promise, w') ->
  exists started, promise = Ret started.
Proof.
  intros Hitem. unfold start_item, prop, JS.bind, JS.lift, JS.attempt, JS.ret.
  destruct item; try contradiction; simpl;
    unfold coalesce_with, Date_now_value, JS.bind, JS.ret, now;
    try match goal with |- context [nullish ?v] => destruct (nullish v) end;
    simpl;
    match goal with |- context [fetch ?req ?w] => destruct (fetch req w) end;
    intros [= <- _]; eauto.
Qed.

Lemma start_item_frame (settings : Settings) (item : JSON) w file settled w' :
  start_item settings item w = (Ret (file, settled), w') ->
  get (Some item) "id" = Ret (kf_id file) /\
  exists status,
    get (Some item) "status" = Ret status /\
    kf_status file = status ?? Some (JStr "unknown").
Proof.
  unfold start_item, prop, JS.bind, JS.lift, JS.attempt, JS.ret.
  destruct item; simpl; try discriminate;
    unfold coalesce_with, Date_now_value, JS.bind, JS.ret, now;
    try match goal with |- context [nullish ?v] => destruct (nullish v) end;
    simpl;
    match goal with |- context [fetch ?req ?w] => destruct (fetch req w) end;
    intros [= <- _ _]; simpl; eauto.
Qed.

Lemma finish_item_frame (file : KnowledgeFile) (settled : Outcome Response) :
  kf_id (finish_item (file, settled)) = kf_id file /\
  kf_status (finish_item (file, settled)) = kf_status file.
Proof.
  unfold finish_item, Response_json.
  destruct settled as [res|e]; simpl; [|auto].
  destruct (ok res); simpl; [|auto].
  destruct (res_json res) as [detail|]; simpl; [|auto].
  destruct detail; simpl; auto.
Qed.

Lemma finish_item_failed (file : KnowledgeFile) (settled : Outcome Response) :
  detail_failed settled -> finish_item (file, settled) = file.
Proof.
  unfold finish_item, Response_json.
  destruct settled as [res|e]; simpl; [|reflexivity].
  intros [->| ->]; [reflexivity|]. destruct (ok res); reflexivity.
Qed.

(** A primary listing whose body carries a [data] array without [null]
    entries makes [listFiles] succeed, whatever becomes of the detail
    requests. *)
Lemma listFiles_listing (settings : Settings) w res body entries :
  truthy (apiKey settings) = true ->
  truthy (vectorStoreId settings) = true ->
  remote (sent w) (list_request settings) = Responded res ->
  ok res = true ->
  res_json res = Some body ->
  get (Some body) "data" = Ret (Some (JArr entries)) ->
  Forall (fun item => item <> JNull) entries ->
  exists tasks w',
    listFiles settings w = (Ret (Success (finish_item <$> tasks)), w') /\
    Forall2 (fun item started =>
               exists w1 w2, start_item settings item w1 = (Ret started, w2))
      entries tasks.
Proof.
  intros Hkey Hstore Hremote Hok Hbody Hdata Hentries.
  unfold listFiles. rewrite guarded_ok by assumption.
  unfold JS.bind at 1. rewrite (fetch_responded _ _ _ Hremote).
  unfold JS.bind at 1, JS.lift at 1. rewrite (handleResponse_ok _ _ Hok Hbody).
  unfold JS.bind at 1, JS.lift at 1. rewrite Hdata.
  destruct (map_async_runs (start_item settings) entries
              (record (list_request settings) w)) as (promises & w' & Hmap & Hall).
  assert (Htasks : exists tasks,
             promises = Ret <$> tasks /\
             Forall2 (fun item started =>
                        exists w1 w2, start_item settings item w1 = (Ret started, w2))
               entries tasks).
  { clear Hmap Hdata. induction Hall as [|item promise entries promises Hp Hall IH].
    - exists []. split; [reflexivity|constructor].
    - apply Forall_cons in Hentries as [Hitem Hentries].
      destruct (IH Hentries) as (tasks & -> & Htasks).
      destruct Hp as (w1 & w2 & Hp).
      destruct (start_item_returns _ _ _ _ _ Hitem Hp) as [started ->].
      exists (started :: tasks). split; [reflexivity|].
      constructor; eauto. }
  destruct Htasks as (tasks & -> & Htasks).
  exists tasks, w'. split; [|exact Htasks].
  unfold JS.bind at 1. rewrite Hmap.
  unfold JS.bind. rewrite Promise_all_fulfilled. reflexivity.
Qed.

(** What a successful [listFiles] went through. *)
Lemma listFiles_Success_inv (settings : Settings) w files w' :
  listFiles settings w = (Ret (Success files), w') ->
  exists res body entries tasks,
    remote (sent w) (list_request settings) = Responded res /\
    ok res = true /\
    res_json res = Some body /\
    get (Some body) "data" = Ret (Some (JArr entries)) /\
    files = finish_item <$> tasks /\
    Forall2 (fun item started =>
               exists w1 w2, start_item settings item w1 = (Ret started, w2))
      entries tasks.
Proof.
  intros [_ H]%guarded_inv. revert H.
  unfold JS.bind at 1, fetch.
  destruct (remote (sent w) (list_request settings)) as [res|e] eqn:Hremote;
    [|discriminate].
  unfold JS.bind at 1, JS.lift at 1.
  destruct (handleResponse res) as [[body|error]|e] eqn:Hres; try discriminate.
  apply handleResponse_Success_inv in Hres as [Hok Hbody].
  unfold JS.bind at 1, JS.lift at 1.
  destruct (get (Some body) "data") as [data|e] eqn:Hdata; [|discriminate].
  destruct data as [[| | | |entries|]|]; try discriminate.
  destruct (map_async_runs (start_item settings) entries
              (record (list_request settings) w)) as (promises & w1 & Hmap & Hall).
  unfold JS.bind at 1. rewrite Hmap.
  unfold JS.bind at 1.
  destruct (Promise_all finish_item promises w1) as [[values|e] w2] eqn:Hall';
    [|discriminate].
  apply Promise_all_inv in Hall' as (tasks & -> & -> & ->).
  intros [= <- <-].
  exists res, body, entries, tasks. repeat split; try assumption.
  apply Forall2_fmap_r in Hall. exact Hall.
Qed.

(** What holds of the listing when the service answers: with a key and a
    store id, a primary listing answered outside 2xx
    makes [listFiles] return the failure [handleResponse] built from it; a
    primary listing that succeeded, its body carrying the [data] array of
    associations, makes [listFiles] return a success whatever becomes of the
    detail requests, and an entry whose detail request failed is the file
    built from the association alone. *)
Theorem listFiles_secondary_failures_stay_local (settings : Settings) w res :
  truthy (apiKey settings) = true ->
  truthy (vectorStoreId settings) = true ->
  remote (sent w) (list_request settings) = Responded res ->
  (ok res = false ->
   exists error,
     handleResponse res = Ret (Failure error) /\
     listFiles settings w = (Ret (Failure error), record (list_request settings) w)) /\
  (forall body entries,
      ok res = true ->
      res_json res = Some body ->
      get (Some body) "data" = Ret (Some (JArr entries)) ->
      Forall (fun item => item <> JNull) entries ->
      exists files w',
        listFiles settings w = (Ret (Success files), w') /\
        Forall2 (fun item file =>
                   exists w1 w2 file0 settled,
                     start_item settings item w1 = (Ret (file0, settled), w2) /\
                     file = finish_item (file0, settled) /\
                     (detail_failed settled -> file = file0))
          entries files).
Proof.
  intros Hkey Hstore Hremote. split.
  - intros Hok. destruct (handleResponse_not_ok res Hok) as [error Herror].
    exists error. split; [exact Herror|].
    unfold listFiles. rewrite guarded_ok by assumption.
    unfold JS.bind at 1. rewrite (fetch_responded _ _ _ Hremote).
    unfold JS.bind, JS.lift. rewrite Herror. reflexivity.
  - intros body entries Hok Hbody Hdata Hentries.
    destruct (listFiles_listing settings w res body entries)
      as (tasks & w' & Hlist & Htasks); try assumption.
    exists (finish_item <$> tasks), w'. split; [exact Hlist|].
    apply Forall2_fmap_r. eapply Forall2_impl; [exact Htasks|].
    intros item [file0 settled] (w1 & w2 & Hstart). unfold compose.
    exists w1, w2, file0, settled. split; [exact Hstart|]. split; [reflexivity|].
    intros Hfailed. apply finish_item_failed. exact Hfailed.
Qed.

(** C10. The continuation of the detail request leaves [id] and [status]
    alone, and in a successful [listFiles] every file carries the [id] of
    its association and the association's [status], or [unknown] when the
    association has none. *)
Theorem listFiles_keeps_id_and_status (settings : Settings) w files w' :
  listFiles settings w = (Ret (Success files), w') ->
  (forall file settled,
      kf_id (finish_item (file, settled)) = kf_id file /\
      kf_status (finish_item (file, settled)) = kf_status file) /\
  exists res body entries,
    remote (sent w) (list_request settings) = Responded res /\
    res_json res = Some body /\
    get (Some body) "data" = Ret (Some (JArr entries)) /\
    Forall2 (fun item file =>
               get (Some item) "id" = Ret (kf_id file) /\
               exists status,
                 get (Some item) "status" = Ret status /\
                 kf_status file = status ?? Some (JStr "unknown"))
      entries files.
Proof.
  intros (res & body & entries & tasks & Hremote & _ & Hbody & Hdata & -> & Hall)
    %listFiles_Success_inv.
  split; [apply finish_item_frame|].
  exists res, body, entries. repeat split; try assumption.
  apply Forall2_fmap_r. eapply Forall2_impl; [exact Hall|].
  intros item [file settled] (w1 & w2 & Hstart). unfold compose.
  destruct (finish_item_frame file settled) as [-> ->].
  eapply start_item_frame. exact Hstart.
Qed.

(** ** replaceFile *)

Lemma deleteFile_sends (fileId : string) (settings : Settings) w :
  ensureSettings settings = Ret tt ->
  exists deletion,
    deleteFile fileId settings w =
      (deletion, record (delete_request fileId settings) w).
Proof.
  intros Hens. unfold deleteFile, guarded. rewrite Hens.
  unfold JS.bind, JS.lift, fetch.
  destruct (remote (sent w) (delete_request fileId settings)) as [res|e]; [|eauto].
  destruct (handleResponse res) as [[data|error]|e]; eauto.
Qed.

(** What holds of [replaceFile] when the deletion returns a result:
    [replaceFile] runs the upload first. When the upload returns a
    failure, [replaceFile] returns that failure and the world is the one the
    upload left: no deletion was sent. When the upload returns a success,
    the deletion request is sent next, and whichever result the deletion
    returns, success or failure, [replaceFile] returns the upload's. *)
Theorem replaceFile_upload_then_delete
    (existingFileId : string) (nextFile : File) (settings : Settings) w :
  (forall error w1,
      uploadFile nextFile settings w = (Ret (Failure error), w1) ->
      replaceFile existingFileId nextFile settings w = (Ret (Failure error), w1)) /\
  (forall file w1,
      uploadFile nextFile settings w = (Ret (Success file), w1) ->
      exists deletion,
        deleteFile existingFileId settings w1 =
          (deletion, record (delete_request existingFileId settings) w1) /\
        forall deleted,
          deletion = Ret deleted ->
          replaceFile existingFileId nextFile settings w =
            (Ret (Success file), record (delete_request existingFileId settings) w1)).
Proof.
  split.
  - intros error w1 Hup. unfold replaceFile, JS.bind. rewrite Hup. reflexivity.
  - intros file w1 Hup.
    destruct (guarded_inv _ _ _ _ _ Hup) as [Hens _].
    destruct (deleteFile_sends existingFileId settings w1 Hens) as [deletion Hdel].
    exists deletion. split; [exact Hdel|].
    intros deleted ->. unfold replaceFile, JS.bind. rewrite Hup, Hdel. reflexivity.
Qed.

(** ** askQuestion *)

Lemma askQuestion_answered
    (question : string) (chatHistory : list ChatMessage) (settings : Settings)
    w res body text :
  truthy (trim question) = true ->
  truthy (apiKey settings) = true ->
  truthy (vectorStoreId settings) = true ->
  remote (sent w) (responses_request question chatHistory settings) = Responded res ->
  ok res = true ->
  res_json res = Some body ->
  unwrap body = Ret text ->
  exists id createdAt w',
    askQuestion question chatHistory settings w =
      (Ret (Success {| msg_id := id; role := assistant;
                       content := text; createdAt := createdAt |}), w').
Proof.
  intros Hq Hkey Hstore Hremote Hok Hbody Htext.
  unfold askQuestion. rewrite Hq. unfold negb.
  rewrite guarded_ok by assumption.
  unfold JS.bind at 1. rewrite (fetch_responded _ _ _ Hremote).
  unfold JS.bind at 1, JS.lift at 1. rewrite (handleResponse_ok _ _ Hok Hbody).
  unfold JS.bind at 1, JS.lift at 1. rewrite Htext.
  unfold JS.bind at 1, JS.lift at 1.
  assert (Hid : exists id, get (Some body) "id" = Ret id).
  { unfold unwrap in Htext. destruct body; simpl in *; try discriminate; eauto. }
  destruct Hid as [id ->].
  unfold JS.bind, coalesce_with, crypto_randomUUID, now, JS.ret.
  destruct (nullish id); eauto.
Qed.

(** C4. A 2xx answer to the request of [askQuestion] yields a message whose
    content is [Paris] for the body with a [message] block holding an
    [output_text] item, [Lyon] for the body with only a top-level
    [output_text], and [No response] for the body [{foo: 1}]. *)
Theorem askQuestion_unwraps_test_vectors
    (question : string) (chatHistory : list ChatMessage) (settings : Settings)
    w res :
  truthy (trim question) = true ->
  truthy (apiKey settings) = true ->
  truthy (vectorStoreId settings) = true ->
  remote (sent w) (responses_request question chatHistory settings) = Responded res ->
  ok res = true ->
  (res_json res = Some paris_body ->
   exists id createdAt w',
     askQuestion question chatHistory settings w =
       (Ret (Success {| msg_id := id; role := assistant;
                        content := "Paris"; createdAt := createdAt |}), w')) /\
  (res_json res = Some lyon_body ->
   exists id createdAt w',
     askQuestion question chatHistory settings w =
       (Ret (Success {| msg_id := id; role := assistant;
                        content := "Lyon"; createdAt := createdAt |}), w')) /\
  (res_json res = Some foo_body ->
   exists id createdAt w',
     askQuestion question chatHistory settings w =
       (Ret (Success {| msg_id := id; role := assistant;
                        content := "No response"; createdAt := createdAt |}), w')).
Proof.
  intros Hq Hkey Hstore Hremote Hok.
  repeat split; intros Hbody; eapply askQuestion_answered; eauto.
Qed.

End Properties.

(** ** The order in which promises settle *)

Lemma Promise_all_any_order {host : Host} {A B} (order : nat -> nat)
    (finish : A -> B) (promises : list (Outcome A)) w :
  Promise_all (host := with_arrival order host) finish promises w =
  Promise_all finish promises w.
Proof.
  destruct (first_rejection promises) as [e|] eqn:Hrej.
  - unfold Promise_all. rewrite Hrej. reflexivity.
  - destruct (first_rejection_None promises Hrej) as [tasks ->].
    rewrite (Promise_all_fulfilled (host := with_arrival order host)).
    rewrite Promise_all_fulfilled. reflexivity.
Qed.

Lemma listFiles_any_order {host : Host} (order : nat -> nat)
    (settings : Settings) w :
  listFiles (host := with_arrival order host) settings w = listFiles settings w.
Proof.
  unfold listFiles, guarded. destruct (ensureSettings settings); [|reflexivity].
  unfold JS.bind, JS.lift.
  change (fetch (host := with_arrival order host)) with (fetch (host := host)).
  change (start_item (host := with_arrival order host))
    with (start_item (host := host)).
  destruct (fetch (list_request settings) w) as [[res|e] w1]; [|reflexivity].
  destruct (handleResponse res) as [[body|error]|e]; try reflexivity.
  destruct (get (Some body) "data") as [data|e]; [|reflexivity].
  destruct data as [[| | | |entries|]|]; try reflexivity.
  destruct (map_async (start_item settings) entries w1) as [[promises|e] w2];
    [|reflexivity].
  rewrite Promise_all_any_order. reflexivity.
Qed.

(** C6. The order in which the host lets the detail requests settle does
    not change what [listFiles] returns; and when [listFiles] succeeds, the
    files are as many as the entries of the [data] array of the primary
    listing, the file at each index being the one the callback derives from
    the entry at that index. *)
Theorem listFiles_preserves_order {host : Host} (settings : Settings) w :
  (forall order,
      listFiles (host := with_arrival order host) settings w = listFiles settings w) /\
  (forall files w',
      listFiles settings w = (Ret (Success files), w') ->
      exists res body entries,
        remote (sent w) (list_request settings) = Responded res /\
        res_json res = Some body /\
        get (Some body) "data" = Ret (Some (JArr entries)) /\
        length files = length entries /\
        forall i item,
          entries !! i = Some item ->
          exists file, files !! i = Some file /\ derived settings item file).
Proof.
  split; [intros order; apply listFiles_any_order|].
  intros files w'
    (res & body & entries & tasks & Hremote & _ & Hbody & Hdata & -> & Hall)
    %listFiles_Success_inv.
  exists res, body, entries. repeat split; try assumption.
  - rewrite length_fmap. symmetry. eapply Forall2_length. exact Hall.
  - intros i item Hi.
    destruct (Forall2_lookup_l _ _ _ _ _ Hall Hi) as (started & Hstarted & w1 & w2 & Hs).
    exists (finish_item started). split.
    + rewrite list_lookup_fmap, Hstarted. reflexivity.
    + exists w1, w2, started. auto.
Qed.

(** ** Instances at concrete inputs *)

Lemma handleResponse_error_message_witness :
  handleResponse (response 401 "Unauthorized" (Some bad_key_body)) =
    Ret (Failure (Some (JStr "bad key"))) /\
  handleResponse (response 502 "Bad Gateway" None) =
    Ret (Failure (Some (JStr "502 Bad Gateway"))).
Proof.
  split.
  - apply (proj1 (handleResponse_error_message
                    (response 401 "Unauthorized" (Some bad_key_body)) eq_refl)
             [("error", JObj [("message", JStr "bad key")])]
             [("message", JStr "bad key")] "bad key"); reflexivity.
  - apply (proj2 (handleResponse_error_message
                    (response 502 "Bad Gateway" None) eq_refl)); reflexivity.
Defined.

Lemma askQuestion_blank_question_witness :
  askQuestion (host := constant_host (response 200 "OK" None))
    "  " [] sample_settings fresh =
    (Ret (Failure (Some (JStr "Question is empty"))), fresh).
Proof.
  apply (askQuestion_blank_question (host := constant_host (response 200 "OK" None))).
  reflexivity.
Defined.

Lemma missing_settings_fail_fast_witness :
  exists error,
    listFiles (host := constant_host (response 200 "OK" None))
      settings_without_store fresh = (Ret (Failure error), fresh).
Proof.
  destruct (missing_settings_fail_fast
              (host := constant_host (response 200 "OK" None))
              settings_without_store fresh (or_intror eq_refl))
    as [[error [Hlist _]] _].
  exists error. exact Hlist.
Defined.

(** C2 as stated fails: with a key and an empty [vectorStoreId],
    [createVectorStore] does not throw; it sends its request and returns what
    the service answered. *)
Lemma createVectorStore_without_store_id :
  (apiKey settings_without_store = "" \/ vectorStoreId settings_without_store = "") /\
  createVectorStore (host := constant_host (response 200 "OK" (Some new_store_body)))
    "docs" settings_without_store fresh =
    (Ret (Success new_store_body),
     record (create_request (host := constant_host (response 200 "OK" (Some new_store_body)))
               "docs" settings_without_store) fresh) /\
  ~ (exists e w',
        createVectorStore (host := constant_host (response 200 "OK" (Some new_store_body)))
          "docs" settings_without_store fresh = (Throw e, w')).
Proof.
  split; [right; reflexivity|]. split; [reflexivity|].
  intros (e & w' & H). vm_compute in H. discriminate H.
Qed.



Lemma askQuestion_unwraps_test_vectors_witness :
  exists id createdAt w',
    askQuestion (host := constant_host (response 200 "OK" (Some paris_body)))
      "Capital of France?" [] sample_settings fresh =
      (Ret (Success {| msg_id := id; role := assistant;
                       content := "Paris"; createdAt := createdAt |}), w').
Proof.
  apply (proj1 (askQuestion_unwraps_test_vectors
                  (host := constant_host (response 200 "OK" (Some paris_body)))
                  "Capital of France?" [] sample_settings fresh
                  (response 200 "OK" (Some paris_body))
                  eq_refl eq_refl eq_refl eq_refl eq_refl)
           eq_refl).
Defined.

Lemma replaceFile_upload_then_delete_witness :
  exists file w',
    replaceFile (host := refusing_delete_host) "vsf_0" sample_file sample_settings fresh =
      (Ret (Success file), w').
Proof.
  destruct (proj2 (replaceFile_upload_then_delete (host := refusing_delete_host)
                     "vsf_0" sample_file sample_settings fresh) _ _ eq_refl)
    as (deletion & Hdeletion & Hreplace).
  eexists _, _. eapply Hreplace. vm_compute in Hdeletion.
  injection Hdeletion as ->. reflexivity.
Defined.

Lemma listFiles_secondary_failures_stay_local_witness :
  exists files w',
    listFiles (host := listing_host) sample_settings fresh = (Ret (Success files), w') /\
    length files = 2%nat.
Proof.
  destruct (proj2 (listFiles_secondary_failures_stay_local (host := listing_host)
                     sample_settings fresh (response 200 "OK" (Some listing_body))
                     eq_refl eq_refl eq_refl)
              listing_body _ eq_refl eq_refl eq_refl)
    as (files & w' & Hlist & Hall).
  { repeat constructor; discriminate. }
  exists files, w'. split; [exact Hlist|].
  apply Forall2_length in Hall. symmetry. exact Hall.
Defined.

Lemma listFiles_preserves_order_witness :
  exists files w',
    listFiles (host := listing_host) sample_settings fresh = (Ret (Success files), w') /\
    length files = 2%nat.
Proof.
  eexists _, _. split; [reflexivity|].
  destruct (proj2 (listFiles_preserves_order (host := listing_host)
                     sample_settings fresh) _ _ eq_refl)
    as (res & body & entries & Hremote & Hbody & Hdata & Hlength & _).
  vm_compute in Hremote. injection Hremote as <-.
  vm_compute in Hbody. injection Hbody as <-.
  vm_compute in Hdata. injection Hdata as <-.
  exact Hlength.
Defined.

Lemma listFiles_keeps_id_and_status_witness :
  exists files w',
    listFiles (host := listing_host) sample_settings fresh = (Ret (Success files), w') /\
    Forall2 (fun item file =>
               get (Some item) "id" = Ret (kf_id file) /\
               exists status,
                 get (Some item) "status" = Ret status /\
                 kf_status file = status ?? Some (JStr "unknown"))
      [JObj [("id", JStr "vsf_1"); ("file_id", JStr "file_1");
             ("status", JStr "completed")];
       JObj [("id", JStr "vsf_2"); ("filename", JStr "notes.txt")]]
      files.
Proof.
  eexists _, _. split; [reflexivity|].
  destruct (listFiles_keeps_id_and_status (host := listing_host)
              sample_settings fresh _ _ eq_refl)
    as (_ & res & body & entries & Hremote & Hbody & Hdata & Hall).
  vm_compute in Hremote. injection Hremote as <-.
  vm_compute in Hbody. injection Hbody as <-.
  vm_compute in Hdata. injection Hdata as <-.
  exact Hall.
Defined.

(** C1 fails on the code: a 2xx answer whose body is not JSON makes
    [res.json()] reject on the success path of [handleResponse], which
    nothing catches, and a rejected [fetch] is not caught either; the
    exception leaves every operation. *)
Theorem exceptions_escape :
  let silent := constant_host (response 200 "OK" None) in
  fst (listFiles (host := silent) sample_settings fresh) = Throw SyntaxError /\
  fst (uploadFile (host := silent) sample_file sample_settings fresh) = Throw SyntaxError /\
  fst (replaceFile (host := silent) "vsf_0" sample_file sample_settings fresh)
    = Throw SyntaxError /\
  fst (deleteFile (host := silent) "vsf_0" sample_settings fresh) = Throw SyntaxError /\
  fst (askQuestion (host := silent) "Capital of France?" [] sample_settings fresh)
    = Throw SyntaxError /\
  fst (createVectorStore (host := silent) "docs" sample_settings fresh)
    = Throw SyntaxError /\
  fst (listFiles (host := unreachable_host) sample_settings fresh) = Throw TypeError /\
  fst (listFiles (host := constant_host (response 200 "OK" (Some (JObj []))))
         sample_settings fresh) = Throw TypeError.
Proof. repeat split; reflexivity. Qed.

(** C3 fails on the code: after an upload that succeeded, a deletion that
    throws makes [replaceFile] throw instead of returning the upload's
    result. [deleteFile] throws when the service answers the deletion with
    [204 No Content], since [handleResponse] awaits [res.json()] outside any
    [try], and when the [fetch] of the deletion is rejected; [replaceFile]
    awaits [deleteFile] outside any [try]. *)
Theorem replaceFile_loses_upload_result :
  (exists file w1,
      uploadFile (host := no_content_delete_host) sample_file sample_settings fresh
      = (Ret (Success file), w1)) /\
  fst (replaceFile (host := no_content_delete_host) "vsf_0" sample_file
         sample_settings fresh) = Throw SyntaxError /\
  (exists file w1,
      uploadFile (host := lost_delete_host) sample_file sample_settings fresh
      = (Ret (Success file), w1)) /\
  fst (replaceFile (host := lost_delete_host) "vsf_0" sample_file
         sample_settings fresh) = Throw TypeError.
Proof.
  split; [eexists _, _; reflexivity|]. split; [reflexivity|].
  split; [eexists _, _; reflexivity|]. reflexivity.
Qed.

(** C5 fails on the code: when the primary listing request fails because
    its [fetch] is rejected, [listFiles] throws instead of returning that
    failure, and when the primary listing succeeds with a [data] array that
    holds a [null], [listFiles] throws instead of returning a success: only
    the detail requests are inside a [try]. *)
Theorem listFiles_primary_exception_escapes :
  fst (listFiles (host := unreachable_host) sample_settings fresh)
  = Throw TypeError /\
  handleResponse (response 200 "OK" (Some null_entry_body))
  = Ret (Success null_entry_body) /\
  fst (listFiles (host := constant_host (response 200 "OK" (Some null_entry_body)))
         sample_settings fresh)
  = Throw TypeError.
Proof. repeat split; reflexivity. Qed.

(** * Further properties of the client *)

(** Case analysis on everything a run branches on, innermost first. *)
Ltac split_run H :=
  repeat match type of H with
         | context [match ?x with _ => _ end] =>
             lazymatch x with
             | context [match _ with _ => _ end] => fail
             | _ => destruct x eqn:?
             end
         end.

Ltac close_log :=
  simpl; rewrite <- ?app_assoc; simpl;
  first [ exists []; split; [symmetry; apply app_nil_r|]
        | eexists; split; [reflexivity|] ].

Ltac unfold_run H :=
  unfold guarded, JS.bind, JS.lift, JS.ret, JS.throw, JS.attempt, fetch,
    coalesce_with, Date_now_value, now, crypto_randomUUID in H;
  unfold JS.bind, JS.lift, JS.ret, JS.throw in H.

(** Every branch of a goal that only chooses between returned values. *)
Ltac settle_branches :=
  repeat first
    [ progress simpl
    | match goal with
      | |- context [if ?b then _ else _] => destruct b
      end ];
  eauto.

Ltac unfold_handler H :=
  unfold UI.bind, UI.set, UI.call, UI.render, UI.ret in H.

Section ClientProperties.
Context {host : Host}.

(** X1. On a response outside 2xx [handleResponse] never throws and never
    returns a success: it returns a failure whose error is neither [null]
    nor [undefined], and that error is the status line unless the body is an
    object whose [error] carries the [message] that is returned. *)
Theorem handleResponse_failure_is_total (res : Response) :
  ok res = false ->
  exists error,
    handleResponse res = Ret (Failure error) /\
    nullish error = false /\
    (error = Some (JStr (Number_toString (res_status res) ++ " "
                         ++ res_statusText res)) \/
     exists props error_value,
       res_json res = Some (JObj props) /\
       assoc "error" props = Some error_value /\
       get (Some error_value) "message" = Ret error).
Proof.
  intros Hok. unfold handleResponse, Response_json. rewrite Hok.
  destruct (res_json res) as [body|]; simpl; [|eauto 6].
  destruct body as [| | | | |props]; simpl; eauto 6.
  destruct (assoc "error" props) as [error_value|] eqn:Herror; simpl; [|eauto 6].
  destruct error_value as [| | | | |error_props]; simpl; eauto 6.
  destruct (assoc "message" error_props) as [m|] eqn:Hm; simpl; [|eauto 6].
  unfold coalesce. destruct (nullish (Some m)) eqn:Hnull; [eauto 6|].
  eexists. split; [reflexivity|]. split; [exact Hnull|].
  right. exists props, (JObj error_props). simpl. rewrite Hm. auto.
Qed.

(** X2. The guard names what is missing, the key first: with an empty
    [apiKey] the five guarded operations fail with [Missing API key], also
    when the store id is missing too; with a key and an empty
    [vectorStoreId] they fail with [Missing vector store id]. Nothing is
    sent. *)
Theorem missing_settings_messages (settings : Settings) w :
  (apiKey settings = "" -> fail_fast_with "Missing API key" settings w) /\
  (truthy (apiKey settings) = true -> vectorStoreId settings = "" ->
   fail_fast_with "Missing vector store id" settings w).
Proof.
  assert (Hguard : forall missing,
             ensureSettings settings = Throw (Error missing) ->
             fail_fast_with missing settings w).
  { intros missing Hmissing.
    assert (Hrest : forall T (rest : JS (ApiResult T)),
               guarded settings rest w = (Ret (Failure (str missing)), w)).
    { intros T rest. unfold guarded. rewrite Hmissing. reflexivity. }
    unfold fail_fast_with, replaceFile, JS.bind, listFiles, uploadFile,
      deleteFile, askQuestion.
    repeat split; intros; rewrite ?Hrest; try reflexivity.
    match goal with H : truthy _ = true |- _ => rewrite H end.
    simpl. apply Hrest. }
  split.
  - intros Hkey. apply Hguard. unfold ensureSettings. rewrite Hkey. reflexivity.
  - intros Hkey Hstore. apply Hguard. unfold ensureSettings.
    rewrite Hkey, Hstore. reflexivity.
Qed.

(** X3. [createVectorStore] checks the name before the key: a name that is
    empty or all white space throws [Vector store name is required] whatever
    the settings are, a good name with an empty key throws [API key
    required], and in both cases nothing is sent; with a good name and a key
    exactly one request leaves, whatever the service answers. *)
Theorem createVectorStore_preconditions (name : string) (settings : Settings) w :
  (all_white_space name = true ->
   createVectorStore name settings w
   = (Throw (Error "Vector store name is required"), w)) /\
  (truthy (trim name) = true -> apiKey settings = "" ->
   createVectorStore name settings w = (Throw (Error "API key required"), w)) /\
  (truthy (trim name) = true -> truthy (apiKey settings) = true ->
   exists outcome,
     createVectorStore name settings w
     = (outcome, record (create_request name settings) w)).
Proof.
  unfold createVectorStore. repeat split.
  - intros Hname. rewrite (trim_blank _ Hname). reflexivity.
  - intros -> ->. reflexivity.
  - intros -> ->. simpl. unfold JS.bind, JS.lift, fetch.
    destruct (remote (sent w) (create_request name settings)) as [res|e]; [|eauto].
    destruct (handleResponse res); eauto.
Qed.

(** ** What the operations send *)

Lemma deleteFile_sends_one (fileId : string) (settings : Settings) :
  sends (fun new => at_most 1 new /\ Forall (authorized settings) new)
    (deleteFile fileId settings).
Proof.
  intros w o w' H. unfold deleteFile in H. unfold_run H. split_run H;
    injection H as <- <-; close_log;
    (split; [unfold at_most; simpl; lia|repeat constructor]).
Qed.

Lemma uploadFile_sends_two (file : File) (settings : Settings) :
  sends (fun new => at_most 2 new /\ Forall (authorized settings) new)
    (uploadFile file settings).
Proof.
  intros w o w' H. unfold uploadFile in H. unfold_run H. split_run H;
    injection H as <- <-; close_log;
    (split; [unfold at_most; simpl; lia|repeat constructor]).
Qed.

Lemma askQuestion_sends_one
    (question : string) (chatHistory : list ChatMessage) (settings : Settings) :
  sends (fun new => at_most 1 new /\ Forall (authorized settings) new)
    (askQuestion question chatHistory settings).
Proof.
  intros w o w' H. unfold askQuestion in H. unfold_run H. split_run H;
    injection H as <- <-; close_log;
    (split; [unfold at_most; simpl; lia|repeat constructor]).
Qed.

Lemma createVectorStore_sends_one (name : string) (settings : Settings) :
  sends (fun new => at_most 1 new /\ Forall (authorized settings) new)
    (createVectorStore name settings).
Proof.
  intros w o w' H. unfold createVectorStore in H. unfold_run H. split_run H;
    injection H as <- <-; close_log;
    (split; [unfold at_most; simpl; lia|repeat constructor]).
Qed.

Lemma sends_bind {A B} (P Q R : list Request -> Prop) (m : JS A) (k : A -> JS B) :
  sends P m ->
  (forall a, sends Q (k a)) ->
  (forall new, P new -> R new) ->
  (forall new1 new2, P new1 -> Q new2 -> R (new1 ++ new2)%list) ->
  sends R (JS.bind m k).
Proof.
  intros Hm Hk Hthrow Hboth w o w' H. unfold JS.bind in H.
  destruct (m w) as [[a|e] w1] eqn:Hrun.
  - destruct (Hm _ _ _ Hrun) as (new1 & Hlog1 & HP).
    destruct (Hk a _ _ _ H) as (new2 & Hlog2 & HQ).
    exists (new1 ++ new2)%list. split; [|auto].
    rewrite Hlog2, Hlog1, app_assoc. reflexivity.
  - injection H as <- <-. destruct (Hm _ _ _ Hrun) as (new1 & Hlog1 & HP).
    exists new1. auto.
Qed.

Lemma sends_ret {A} (P : list Request -> Prop) (a : A) :
  P [] -> sends P (JS.ret a).
Proof.
  intros HP w o w' [= <- <-]. exists []. split; [symmetry; apply app_nil_r|exact HP].
Qed.

Lemma sends_throw {A} (P : list Request -> Prop) (e : exn) :
  P [] -> sends P (JS.throw (A := A) e).
Proof.
  intros HP w o w' [= <- <-]. exists []. split; [symmetry; apply app_nil_r|exact HP].
Qed.

Lemma sends_lift {A} (P : list Request -> Prop) (o : Outcome A) :
  P [] -> sends P (JS.lift o).
Proof.
  intros HP w o' w' [= <- <-]. exists []. split; [symmetry; apply app_nil_r|exact HP].
Qed.

Lemma sends_fetch (P : list Request -> Prop) (req : Request) :
  P [req] -> sends P (fetch req).
Proof.
  intros HP w o w' H. unfold fetch in H.
  exists [req]. split; [|exact HP].
  destruct (remote (sent w) req); injection H as <- <-; reflexivity.
Qed.

Lemma sends_attempt {A} (P : list Request -> Prop) (m : JS A) :
  sends P m -> sends P (JS.attempt m).
Proof.
  intros Hm w o w' H. unfold JS.attempt in H.
  destruct (m w) as [o1 w1] eqn:Hrun. injection H as <- <-. eauto.
Qed.

Lemma replaceFile_sends_three
    (existingFileId : string) (nextFile : File) (settings : Settings) :
  sends (fun new => at_most 3 new /\ Forall (authorized settings) new)
    (replaceFile existingFileId nextFile settings).
Proof.
  unfold replaceFile.
  eapply (sends_bind
            (fun new => at_most 2 new /\ Forall (authorized settings) new)
            (fun new => at_most 1 new /\ Forall (authorized settings) new));
    [apply uploadFile_sends_two| | |].
  - intros [file|error].
    + eapply (sends_bind _ (fun new => new = [])); [apply deleteFile_sends_one| | |].
      * intros deleted. apply sends_ret. reflexivity.
      * auto.
      * intros new1 new2 H1 ->. rewrite app_nil_r. exact H1.
    + apply sends_ret. split; [unfold at_most; simpl; lia|constructor].
  - intros new [Hn Hauth]. split; [unfold at_most in *; lia|exact Hauth].
  - intros new1 new2 [Hn1 Ha1] [Hn2 Ha2]. split.
    + unfold at_most in *. rewrite length_app. lia.
    + apply Forall_app. auto.
Qed.

Lemma start_item_sends (settings : Settings) (item : JSON) :
  sends (fun new => at_most 1 new /\ Forall (authorized settings) new)
    (start_item settings item).
Proof.
  intros w o w' H. unfold start_item, prop in H. unfold_run H. split_run H;
    injection H as <- <-; close_log;
    (split; [unfold at_most; simpl; lia|repeat constructor]).
Qed.

Lemma map_async_sends {A B} (P : list Request -> Prop) (f : A -> JS B)
    (items : list A) :
  P [] ->
  (forall new1 new2, P new1 -> P new2 -> P (new1 ++ new2)%list) ->
  (forall item, sends P (f item)) ->
  sends P (map_async f items).
Proof.
  intros Hnil Happ Hf. induction items as [|item items IH]; simpl.
  - apply sends_ret. exact Hnil.
  - eapply (sends_bind P P);
      [apply sends_attempt, Hf| |auto|exact Happ].
    intros promise.
    eapply (sends_bind P (fun new => new = [])); [exact IH| |auto|].
    + intros promises. apply sends_ret. reflexivity.
    + intros new1 new2 H1 ->. rewrite app_nil_r. exact H1.
Qed.

Lemma Promise_all_sends {A B} (finish : A -> B) (promises : list (Outcome A)) :
  sends (fun new => new = []) (Promise_all finish promises).
Proof.
  intros w o w' H. unfold Promise_all in H.
  destruct (first_rejection promises); injection H as <- <-;
    exists []; split; auto using app_nil_r.
Qed.

Lemma listFiles_sends_authorized (settings : Settings) :
  sends (Forall (authorized settings)) (listFiles settings).
Proof.
  unfold listFiles, guarded.
  destruct (ensureSettings settings); [|apply sends_ret; constructor].
  eapply (sends_bind (Forall (authorized settings)) (Forall (authorized settings)));
    [apply sends_fetch; repeat constructor| |auto|intros; apply Forall_app; auto].
  intros res.
  eapply (sends_bind (fun new => new = []) (Forall (authorized settings)));
    [apply sends_lift; reflexivity| |intros new ->; constructor
    |intros new1 new2 -> H; exact H].
  intros [parsed_data|error]; [|apply sends_ret; constructor].
  eapply (sends_bind (fun new => new = []) (Forall (authorized settings)));
    [apply sends_lift; reflexivity| |intros new ->; constructor
    |intros new1 new2 -> H; exact H].
  intros [[| | | |entries|]|]; try (apply sends_throw; constructor).
  eapply (sends_bind (Forall (authorized settings)) (fun new => new = []));
    [| |auto|intros new1 new2 H ->; rewrite app_nil_r; exact H].
  - apply map_async_sends.
    + constructor.
    + intros. apply Forall_app. auto.
    + intros item w o w' H.
      destruct (start_item_sends settings item w o w' H) as (new & Hlog & _ & Hauth).
      eauto.
  - intros promises.
    eapply (sends_bind (fun new => new = []) (fun new => new = []));
      [apply Promise_all_sends| |auto|intros new1 new2 -> ->; reflexivity].
    intros items. apply sends_ret. reflexivity.
Qed.

(** X4. No operation retries or polls: whatever the service answers, and
    whether the operation returns or throws, [deleteFile], [askQuestion] and
    [createVectorStore] send at most one request, [uploadFile] at most two
    and [replaceFile] at most three, and the requests sent before stay in
    the log. *)
Theorem request_budget (settings : Settings) :
  (forall fileId, sends (at_most 1) (deleteFile fileId settings)) /\
  (forall question chatHistory,
      sends (at_most 1) (askQuestion question chatHistory settings)) /\
  (forall name, sends (at_most 1) (createVectorStore name settings)) /\
  (forall file, sends (at_most 2) (uploadFile file settings)) /\
  (forall existingFileId nextFile,
      sends (at_most 3) (replaceFile existingFileId nextFile settings)).
Proof.
  repeat split; intros; intros w o w' H;
    [ apply deleteFile_sends_one in H
    | apply askQuestion_sends_one in H
    | apply createVectorStore_sends_one in H
    | apply uploadFile_sends_two in H
    | apply replaceFile_sends_three in H ];
    destruct H as (new & Hlog & Hn & _); eauto.
Qed.

(** X5. Every request any of the six operations sends, the detail requests
    of [listFiles] included, carries the header [Authorization: Bearer]
    followed by the [apiKey] of the settings it was called with. *)
Theorem every_request_is_authorized (settings : Settings) :
  sends (Forall (authorized settings)) (listFiles settings) /\
  (forall file, sends (Forall (authorized settings)) (uploadFile file settings)) /\
  (forall existingFileId nextFile,
      sends (Forall (authorized settings))
        (replaceFile existingFileId nextFile settings)) /\
  (forall fileId, sends (Forall (authorized settings)) (deleteFile fileId settings)) /\
  (forall question chatHistory,
      sends (Forall (authorized settings))
        (askQuestion question chatHistory settings)) /\
  (forall name, sends (Forall (authorized settings)) (createVectorStore name settings)).
Proof.
  split; [apply listFiles_sends_authorized|].
  repeat split; intros; intros w o w' H;
    [ apply uploadFile_sends_two in H
    | apply replaceFile_sends_three in H
    | apply deleteFile_sends_one in H
    | apply askQuestion_sends_one in H
    | apply createVectorStore_sends_one in H ];
    destruct H as (new & Hlog & _ & Hauth); eauto.
Qed.

(** ** What a success tells *)

Lemma coalesce_not_nullish (a b : value) :
  nullish b = false -> nullish (a ?? b) = false.
Proof. unfold coalesce. destruct (nullish a) eqn:Ha; auto. Qed.

Lemma uploadFile_Success_log (file : File) (settings : Settings) w data w' :
  uploadFile file settings w = (Ret (Success data), w') ->
  exists uploaded_id,
    sent w' = (sent w ++ [upload_request file settings;
                         attach_request uploaded_id settings])%list.
Proof.
  intros H. unfold uploadFile in H. unfold_run H. split_run H;
    try discriminate H; injection H as <- <-; simpl;
    rewrite <- app_assoc; eauto.
Qed.

(** X6. Whatever the service answered, a file that [uploadFile] returns has
    the name of the local file as its [filename] and has [bytes], [status]
    and [created_at] that are neither [null] nor [undefined]; and exactly
    two requests were sent, the upload and then the attachment of the id
    that the body of the upload's answer carried. *)
Theorem uploadFile_success_shape (file : File) (settings : Settings) w data w' :
  uploadFile file settings w = (Ret (Success data), w') ->
  kf_filename data = str (file_name file) /\
  nullish (kf_bytes data) = false /\
  nullish (kf_status data) = false /\
  nullish (kf_created_at data) = false /\
  exists res body uploaded_id,
    remote (sent w) (upload_request file settings) = Responded res /\
    res_json res = Some body /\
    get (Some body) "id" = Ret uploaded_id /\
    sent w' = (sent w ++ [upload_request file settings;
                         attach_request uploaded_id settings])%list.
Proof.
  intros H. unfold uploadFile in H. unfold_run H. split_run H;
    try discriminate H; injection H as <- <-; simpl.
  all: match goal with
       | Hup : handleResponse ?res = Ret (Success ?body),
         Hid : get (Some ?body) "id" = Ret ?uploaded_id,
         Hattach : remote _ (attach_request ?uploaded_id _) = _ |- _ =>
           apply handleResponse_Success_inv in Hup as [_ Hbody];
           repeat split; auto using coalesce_not_nullish;
           exists res, body, uploaded_id; rewrite <- app_assoc; auto
       end.
Qed.

(** X7. When the first step of [uploadFile] is answered outside 2xx, the
    upload fails with the error of that step and the attachment is never
    sent: the upload request is the only one added to the log. *)
Theorem uploadFile_stops_at_first_failure
    (file : File) (settings : Settings) w res :
  truthy (apiKey settings) = true ->
  truthy (vectorStoreId settings) = true ->
  remote (sent w) (upload_request file settings) = Responded res ->
  ok res = false ->
  exists error,
    handleResponse res = Ret (Failure error) /\
    uploadFile file settings w
    = (Ret (Failure error), record (upload_request file settings) w).
Proof.
  intros Hkey Hstore Hremote Hok.
  destruct (handleResponse_not_ok res Hok) as [error Herror].
  exists error. split; [exact Herror|].
  unfold uploadFile. rewrite guarded_ok by assumption.
  unfold JS.bind at 1. rewrite (fetch_responded _ _ _ Hremote).
  unfold JS.bind, JS.lift. rewrite Herror. reflexivity.
Qed.

(** X8. A [replaceFile] that returns a success has sent exactly three
    requests, in this order: the upload of the new file, its attachment,
    and the deletion of the old association. *)
Theorem replaceFile_success_requests
    (existingFileId : string) (nextFile : File) (settings : Settings) w data w' :
  replaceFile existingFileId nextFile settings w = (Ret (Success data), w') ->
  exists uploaded_id,
    sent w' = (sent w ++ [upload_request nextFile settings;
                         attach_request uploaded_id settings;
                         delete_request existingFileId settings])%list.
Proof.
  unfold replaceFile, JS.bind.
  destruct (uploadFile nextFile settings w) as [[[file|error]|e] w1] eqn:Hup;
    try discriminate.
  destruct (guarded_inv _ _ _ _ _ Hup) as [Hens _].
  destruct (deleteFile_sends existingFileId settings w1 Hens) as [deletion ->].
  destruct deletion as [deleted|e]; [|discriminate].
  intros [= <- <-].
  destruct (uploadFile_Success_log _ _ _ _ _ Hup) as [uploaded_id Hlog].
  exists uploaded_id. simpl. rewrite Hlog, <- app_assoc. reflexivity.
Qed.

(** ** listFiles: requests and defaults *)




Lemma start_item_defaults (settings : Settings) (item : JSON) w file settled w' :
  start_item settings item w = (Ret (file, settled), w') ->
  nullish (kf_bytes file) = false /\
  nullish (kf_status file) = false /\
  nullish (kf_created_at file) = false /\
  nullish (kf_metadata file) = false.
Proof.
  intros H. unfold start_item, prop in H. unfold_run H.
  split_run H; try discriminate H; injection H as <- _ _; simpl;
    repeat split; auto using coalesce_not_nullish.
Qed.

Lemma finish_item_defaults (file : KnowledgeFile) (settled : Outcome Response) :
  nullish (kf_bytes file) = false ->
  nullish (kf_status file) = false ->
  nullish (kf_created_at file) = false ->
  nullish (kf_metadata file) = false ->
  nullish (kf_bytes (finish_item (file, settled))) = false /\
  nullish (kf_status (finish_item (file, settled))) = false /\
  nullish (kf_created_at (finish_item (file, settled))) = false /\
  nullish (kf_metadata (finish_item (file, settled))) = false.
Proof.
  intros Hbytes Hstatus Hcreated Hmeta.
  unfold finish_item, Response_json.
  destruct settled as [res|e]; simpl; [|auto].
  destruct (ok res); simpl; [|auto].
  destruct (res_json res) as [detail|]; simpl; [|auto].
  destruct detail; simpl; auto using coalesce_not_nullish.
Qed.

(** X10. Every file in a successful [listFiles] has [bytes], [status],
    [created_at] and [metadata] that are neither [null] nor [undefined],
    whatever the listing entry and the detail response left out or set to
    [null]. *)
Theorem listFiles_fills_defaults (settings : Settings) w files w' :
  listFiles settings w = (Ret (Success files), w') ->
  Forall (fun file =>
            nullish (kf_bytes file) = false /\
            nullish (kf_status file) = false /\
            nullish (kf_created_at file) = false /\
            nullish (kf_metadata file) = false)
    files.
Proof.
  intros (res & body & entries & tasks & _ & _ & _ & _ & -> & Hall)
    %listFiles_Success_inv.
  apply Forall_fmap. eapply Forall2_Forall_r; [exact Hall|].
  apply Forall_forall. intros item _ [file settled] (w1 & w2 & Hstart).
  unfold compose.
  destruct (start_item_defaults _ _ _ _ _ _ Hstart) as (? & ? & ? & ?).
  apply finish_item_defaults; assumption.
Qed.

(** ** askQuestion: what comes back *)

Lemma or_else_truthy (a b : string) :
  truthy b = true -> truthy (or_else a b) = true.
Proof. unfold or_else. destruct (truthy a) eqn:Ha; auto. Qed.

Lemma unwrap_nonempty (data : JSON) (text : string) :
  unwrap data = Ret text -> truthy text = true.
Proof.
  unfold unwrap, Outcome.bind. intros H.
  split_run H; try discriminate H; injection H as <-;
    repeat apply or_else_truthy; reflexivity.
Qed.

(** X11. Whatever the service answered, a message that [askQuestion]
    returns has the role [assistant], a content that is not the empty
    string and an [id] that is neither [null] nor [undefined]; the question
    was not blank, and exactly one request, the one to [/responses], was
    sent. *)
Theorem askQuestion_success_shape
    (question : string) (chatHistory : list ChatMessage) (settings : Settings)
    w answer w' :
  askQuestion question chatHistory settings w = (Ret (Success answer), w') ->
  role answer = assistant /\
  content answer <> "" /\
  nullish (msg_id answer) = false /\
  truthy (trim question) = true /\
  sent w' = (sent w ++ [responses_request question chatHistory settings])%list.
Proof.
  intros H. unfold askQuestion in H. unfold_run H.
  split_run H; try discriminate H; injection H as <- <-; simpl.
  all: match goal with
       | Htext : unwrap _ = Ret ?text |- _ =>
           apply unwrap_nonempty in Htext;
           repeat split; auto;
           try (intros ->; discriminate Htext);
           try (apply negb_false_iff; assumption)
       end.
Qed.

Lemma find_type_returns (t : string) (entries : list JSON) :
  Forall (fun entry => entry <> JNull) entries ->
  exists found,
    find_type t entries = Ret found /\
    (found = undefined \/ exists entry, found = Some entry /\ entry ∈ entries).
Proof.
  induction 1 as [|entry entries Hentry _ IH]; [simpl; eauto|].
  destruct IH as (found & Hfound & Hin).
  assert (Hty : exists ty, get (Some entry) "type" = Ret ty).
  { destruct entry; simpl; eauto. contradiction. }
  destruct Hty as [ty Hty].
  change (find_type t (entry :: entries))
    with (Outcome.bind (get (Some entry) "type")
            (fun type => if is_str type t then Ret (Some entry)
                         else find_type t entries)).
  rewrite Hty. simpl.
  destruct (is_str ty t).
  - exists (Some entry). split; [reflexivity|]. right. exists entry.
    split; [reflexivity|]. apply elem_of_cons. auto.
  - exists found. split; [exact Hfound|].
    destruct Hin as [->|(e & -> & He)]; [left; reflexivity|].
    right. exists e. split; [reflexivity|]. apply elem_of_cons. auto.
Qed.

Lemma unwrap_returns (props : list (string * JSON)) :
  no_null_output props -> exists text, unwrap (JObj props) = Ret text.
Proof.
  unfold no_null_output, unwrap. simpl.
  destruct (assoc "output" props) as [[| | | |entries|]|] eqn:Hout; simpl;
    try (intros _; settle_branches; fail).
  intros Hall.
  assert (Hentries : Forall (fun entry => entry <> JNull) entries).
  { eapply Forall_impl; [exact Hall|]. intros entry [Hentry _]. exact Hentry. }
  destruct (find_type_returns "message" entries Hentries) as (block & -> & Hblock).
  destruct (find_type_returns "output_text" entries Hentries) as (entry & Hentry & _).
  destruct Hblock as [->|(message & -> & Hin)].
  - simpl. rewrite Hentry. settle_branches.
  - rewrite Forall_forall in Hall. destruct (Hall message Hin) as [Hmessage Hcontent].
    unfold opt_get.
    destruct message as [| | | | |message_props]; try contradiction; simpl;
      try (rewrite Hentry; settle_branches; fail).
    simpl in Hcontent.
    destruct (assoc "content" message_props) as [[| | | |cs|]|]; simpl;
      try (rewrite Hentry; settle_branches; fail).
    destruct (find_type_returns "output_text" cs Hcontent) as (c & -> & _).
    simpl. destruct (negb (nullish (c ?? head cs))); simpl; [eauto|].
    rewrite Hentry. settle_branches.
Qed.

(** ** The unwrapping on a call stack *)

Lemma JSON_induction (P : JSON -> Prop) :
  P JNull ->
  (forall b, P (JBool b)) ->
  (forall n, P (JNum n)) ->
  (forall s, P (JStr s)) ->
  (forall items, Forall P items -> P (JArr items)) ->
  (forall props, Forall (fun kv => P (snd kv)) props -> P (JObj props)) ->
  forall value, P value.
Proof.
  intros Hnull Hbool Hnum Hstr Harr Hobj.
  fix IH 1. intros [| b | n | s | items | props].
  - exact Hnull.
  - apply Hbool.
  - apply Hnum.
  - apply Hstr.
  - apply Harr. induction items as [|item items IHitems]; constructor.
    + apply IH.
    + exact IHitems.
  - apply Hobj. induction props as [|[k x] props IHprops]; constructor.
    + apply IH.
    + exact IHprops.
Qed.

Lemma foldr_max_elem (d : nat) (depths : list nat) :
  d ∈ depths -> (d <= foldr Nat.max 0 depths)%nat.
Proof.
  induction depths as [|d' depths IH]; simpl.
  - intros H. apply elem_of_nil in H. contradiction.
  - intros [->|H]%elem_of_cons; [lia|]. specialize (IH H). lia.
Qed.

Lemma nesting_elem (item : JSON) (items : list JSON) :
  item ∈ items -> (nesting item < nesting (JArr items))%nat.
Proof.
  intros Hin. simpl. apply Nat.lt_succ_r, foldr_max_elem.
  apply list_elem_of_In, in_map, list_elem_of_In. exact Hin.
Qed.

Lemma nesting_assoc (k : string) (props : list (string * JSON)) (x : JSON) :
  assoc k props = Some x -> (nesting x < nesting (JObj props))%nat.
Proof.
  intros Hk. simpl. apply Nat.lt_succ_r.
  induction props as [|[k' x'] props IH]; simpl in *; [discriminate|].
  destruct (String.eqb k' k).
  - injection Hk as <-. lia.
  - specialize (IH Hk). lia.
Qed.

Lemma toText_depth_le_nesting (value : JSON) :
  (toText_depth value <= nesting value)%nat.
Proof.
  induction value as [| | | |items IH|props IH] using JSON_induction;
    try (simpl; lia).
  - simpl. apply le_n_S.
    induction IH as [|item items Hitem _ IHitems]; simpl; lia.
  - cbn [toText_depth].
    destruct (string_prop "text" props); [lia|].
    destruct (string_prop "output_text" props); [lia|].
    destruct (string_prop "summary" props); [lia|].
    rewrite toText_depth_content.
    destruct (assoc "content" props) as [inner|] eqn:Hinner; [|lia].
    pose proof (nesting_assoc _ _ _ Hinner) as Hlt.
    assert (Hle : (toText_depth inner <= nesting inner)%nat).
    { clear Hlt. induction IH as [|[k x] props Hx _ IHprops]; simpl in Hinner;
        [discriminate|].
      destruct (String.eqb k "content"); [injection Hinner as <-; exact Hx|auto]. }
    lia.
Qed.

Lemma find_type_elem (t : string) (entries : list JSON) (entry : JSON) :
  find_type t entries = Ret (Some entry) -> entry ∈ entries.
Proof.
  induction entries as [|first entries IH]; [discriminate|].
  cbn [find_type]. unfold Outcome.bind.
  destruct (get (Some first) "type") as [type|e]; [|discriminate].
  destruct (is_str type t).
  - intros [= <-]. apply elem_of_cons. auto.
  - intros H. apply elem_of_cons. auto.
Qed.

Lemma toText_call_fits (frames : nat) (v : value) :
  fits frames v -> toText_call frames v = Ret (toText v).
Proof.
  destruct v as [j|]; simpl.
  - apply toText_within_returns.
  - destruct frames; [lia|reflexivity].
Qed.

Lemma fits_field (frames : nat) (k : string) (props : list (string * JSON)) :
  (nesting (JObj props) < frames)%nat -> fits frames (assoc k props).
Proof.
  intros Hroom. destruct (assoc k props) as [x|] eqn:Hk; simpl; [|lia].
  pose proof (nesting_assoc _ _ _ Hk). pose proof (toText_depth_le_nesting x). lia.
Qed.

Lemma output_entries_sub (props : list (string * JSON)) (entry : JSON) :
  entry ∈ match assoc "output" props with
          | Some (JArr entries) => entries
          | _ => []
          end ->
  (nesting entry < nesting (JObj props))%nat.
Proof.
  destruct (assoc "output" props) as [[| | | |entries|]|] eqn:Houtput;
    try (intros H; apply elem_of_nil in H; contradiction).
  intros Hin. pose proof (nesting_elem _ _ Hin).
  pose proof (nesting_assoc _ _ _ Houtput). lia.
Qed.

Lemma select_entry_sub (props : list (string * JSON)) (e : value) (j : JSON) :
  select_entry (JObj props) = Ret e ->
  e = Some j ->
  (nesting j < nesting (JObj props))%nat.
Proof.
  unfold select_entry. cbn [get Outcome.bind].
  pose proof (output_entries_sub props) as Hentries.
  set (outputArray := match assoc "output" props with
                      | Some (JArr entries) => entries
                      | _ => []
                      end) in *.
  assert (Hrest : forall rest : Outcome value,
             rest = (let! entry := find_type "output_text" outputArray in
                     if negb (nullish entry) then Ret entry
                     else if negb (nullish (assoc "output_text" props))
                          then Ret (assoc "output_text" props)
                          else Ret (assoc "output" props))%outcome ->
             rest = Ret e -> e = Some j ->
             (nesting j < nesting (JObj props))%nat).
  { intros rest -> Hrun ->. unfold Outcome.bind in Hrun.
    destruct (find_type "output_text" outputArray) as [entry|] eqn:Hentry;
      [|discriminate].
    destruct (negb (nullish entry)).
    - injection Hrun as ->. apply Hentries. eapply find_type_elem. exact Hentry.
    - destruct (negb (nullish (assoc "output_text" props)));
        injection Hrun as Hrun; eapply nesting_assoc; exact Hrun. }
  unfold Outcome.bind at 1.
  destruct (find_type "message" outputArray) as [messageBlock|] eqn:Hblock;
    [|discriminate].
  unfold Outcome.bind at 1.
  destruct (opt_get messageBlock "content") as [block_content|] eqn:Hcontent;
    [|discriminate].
  assert (Hsub : forall cs c,
             block_content = Some (JArr cs) -> c ∈ cs ->
             (nesting c < nesting (JObj props))%nat).
  { intros cs c -> Hc. unfold opt_get in Hcontent.
    destruct messageBlock as [block|]; [|discriminate].
    destruct (nullish (Some block)); [discriminate|].
    pose proof (find_type_elem _ _ _ Hblock) as Hin. apply Hentries in Hin.
    destruct block; simpl in Hcontent; try discriminate.
    injection Hcontent as Hcontent.
    pose proof (nesting_assoc _ _ _ Hcontent). pose proof (nesting_elem _ _ Hc).
    lia. }
  destruct block_content as [[| | | |cs|]|]; cbn [Outcome.bind];
    try (apply (Hrest _ eq_refl); fail).
  unfold Outcome.bind at 1.
  destruct (find_type "output_text" cs) as [c|] eqn:Hc; [|discriminate].
  cbn [Outcome.bind].
  destruct (negb (nullish (c ?? head cs))); [|apply (Hrest _ eq_refl)].
  intros [= <-] Hmc. apply (Hsub cs j eq_refl).
  unfold coalesce in Hmc. destruct (nullish c).
  - apply head_Some_elem_of. exact Hmc.
  - subst c. eapply find_type_elem. exact Hc.
Qed.

Lemma unwrap_select (props : list (string * JSON)) :
  unwrap (JObj props)
  = (let! outputEntry := select_entry (JObj props) in
     Ret (or_else (toText outputEntry)
            (or_else (toText (assoc "output_text" props))
               (or_else (toText (assoc "response" props))
                  (or_else (toText (assoc "result" props))
                     (or_else (toText (assoc "text" props)) "No response"))))))%outcome.
Proof.
  unfold unwrap, select_entry. cbn [get Outcome.bind].
  destruct (find_type "message"
              match assoc "output" props with
              | Some (JArr entries) => entries
              | _ => []
              end) as [messageBlock|]; cbn [Outcome.bind]; [|reflexivity].
  destruct (opt_get messageBlock "content") as [block_content|];
    cbn [Outcome.bind]; [|reflexivity].
  destruct block_content as [[| | | |cs|]|]; cbn [Outcome.bind].
  all: try destruct (find_type "output_text" cs) as [c|]; cbn [Outcome.bind];
    try reflexivity.
  all: repeat match goal with
         | |- context [if ?b then _ else _] => destruct b; cbn [Outcome.bind]
         | |- context [Outcome.bind ?m _] =>
             lazymatch m with
             | context [Outcome.bind] => fail
             | _ => destruct m
             end; cbn [Outcome.bind]
         end; try reflexivity.
Qed.

Lemma or_else_lazy_Ret (a b : string) (later : Outcome string) :
  later = Ret b -> or_else_lazy (Ret a) later = Ret (or_else a b).
Proof.
  intros ->. unfold or_else_lazy, or_else. simpl. destruct (truthy a); reflexivity.
Qed.

(** With room on the stack for the nesting of the body, the run of the
    unwrapping on the stack returns what the unwrapping computes. *)
Lemma unwrap_within_returns (frames : nat) (props : list (string * JSON))
    (text : string) :
  (nesting (JObj props) < frames)%nat ->
  unwrap (JObj props) = Ret text ->
  unwrap_within frames (JObj props) = Ret text.
Proof.
  intros Hroom. rewrite unwrap_select. unfold unwrap_within.
  destruct (select_entry (JObj props)) as [outputEntry|] eqn:Hselect;
    cbn [Outcome.bind get]; [|discriminate].
  intros [= <-].
  assert (Hentry : fits frames outputEntry).
  { destruct outputEntry as [j|] eqn:Hj; simpl.
    - pose proof (select_entry_sub props _ j Hselect eq_refl).
      pose proof (toText_depth_le_nesting j). lia.
    - simpl in Hroom. lia. }
  rewrite (toText_call_fits _ _ Hentry).
  rewrite !toText_call_fits by (apply fits_field; exact Hroom).
  repeat apply or_else_lazy_Ret. reflexivity.
Qed.

(** On a stack with room for the nesting of the body, [askQuestion] runs
    as it does without a bound. *)
Lemma askQuestion_within_answered
    (frames : nat) (question : string) (chatHistory : list ChatMessage)
    (settings : Settings) w res props :
  truthy (trim question) = true ->
  truthy (apiKey settings) = true ->
  truthy (vectorStoreId settings) = true ->
  remote (sent w) (responses_request question chatHistory settings) = Responded res ->
  ok res = true ->
  res_json res = Some (JObj props) ->
  no_null_output props ->
  (nesting (JObj props) < frames)%nat ->
  askQuestion_within frames question chatHistory settings w
  = askQuestion question chatHistory settings w.
Proof.
  intros Hq Hkey Hstore Hremote Hok Hbody Hshape Hroom.
  destruct (unwrap_returns props Hshape) as [text Htext].
  unfold askQuestion_within, askQuestion. rewrite Hq. unfold negb.
  rewrite !guarded_ok by assumption.
  unfold JS.bind, JS.lift. rewrite !(fetch_responded _ _ _ Hremote).
  rewrite !(handleResponse_ok _ _ Hok Hbody).
  rewrite (unwrap_within_returns frames props text Hroom Htext), Htext.
  reflexivity.
Qed.

(** X12. A 2xx answer whose body is an object makes [askQuestion] return a
    success with a content that is not empty, whatever else the body holds:
    fields that are missing or of another type are passed over. This holds
    as long as neither the [output] array nor the [content] array of an
    entry of it holds a [null], and the arrays and objects of the body are
    nested less deep than the call stack has room for nested calls of
    [toText]: [askQuestion] run on that stack returns that success, the
    one the unbounded recursion computes. *)
Theorem askQuestion_tolerates_shapes
    (question : string) (chatHistory : list ChatMessage) (settings : Settings)
    w res props (frames : nat) :
  truthy (trim question) = true ->
  truthy (apiKey settings) = true ->
  truthy (vectorStoreId settings) = true ->
  remote (sent w) (responses_request question chatHistory settings) = Responded res ->
  ok res = true ->
  res_json res = Some (JObj props) ->
  no_null_output props ->
  (nesting (JObj props) < frames)%nat ->
  exists answer w',
    askQuestion question chatHistory settings w = (Ret (Success answer), w') /\
    askQuestion_within frames question chatHistory settings w
    = (Ret (Success answer), w') /\
    content answer <> "" /\
    unwrap_within frames (JObj props) = Ret (content answer).
Proof.
  intros Hq Hkey Hstore Hremote Hok Hbody Hshape Hroom.
  destruct (unwrap_returns props Hshape) as [text Htext].
  destruct (askQuestion_answered question chatHistory settings w res
              (JObj props) text Hq Hkey Hstore Hremote Hok Hbody Htext)
    as (id & createdAt & w' & Hask).
  eexists _, w'. split; [exact Hask|]. split.
  - rewrite <- Hask.
    apply (askQuestion_within_answered frames question chatHistory settings
             w res props); assumption.
  - simpl. split.
    + apply unwrap_nonempty in Htext. intros ->. discriminate Htext.
    + apply unwrap_within_returns; assumption.
Qed.

(** X22. The text of the first message block wins: when the first entry
    of type [message] in the [output] array of the body has a [content]
    array, and the first item of type [output_text] in that array has a
    [text] that is a string and not empty, the content of the answer is that
    text, whatever the top-level [output_text], [response], [result] and
    [text] of the body say, and whatever later entries and items hold. *)
Theorem unwrap_prefers_message_text
    (props : list (string * JSON)) (entries : list JSON)
    (block_props : list (string * JSON)) (items : list JSON)
    (item_props : list (string * JSON)) (text : string) :
  assoc "output" props = Some (JArr entries) ->
  find_type "message" entries = Ret (Some (JObj block_props)) ->
  assoc "content" block_props = Some (JArr items) ->
  find_type "output_text" items = Ret (Some (JObj item_props)) ->
  assoc "text" item_props = Some (JStr text) ->
  text <> "" ->
  unwrap (JObj props) = Ret text.
Proof.
  intros Houtput Hblock Hcontent Hitem Htext Hnonempty.
  unfold unwrap. simpl. rewrite Houtput, Hblock. simpl.
  rewrite Hcontent, Hitem. simpl.
  unfold string_prop. rewrite Htext. unfold or_else.
  destruct text; [contradiction|reflexivity].
Qed.

End ClientProperties.

(** * Properties of the storage, the formatting and the handlers *)

Section BrowserProperties.
Context {host : Host} {window : Window}.

(** ** storage.ts *)

(** X13. [loadSettings] gives the defaults, the empty key and store id and
    the model [gpt-5-nano], when there is no [window], when nothing is
    stored under [kb-settings], when the stored text is empty, and when it
    does not parse to an object: [JSON.parse] throws, or yields [null], a
    number, a string, a boolean or an array. *)
Theorem loadSettings_defaults (items : gmap string string) :
  loadSettings None = loaded defaultSettings /\
  (items !! STORAGE_KEY = None ->
   loadSettings (Some items) = loaded defaultSettings) /\
  (items !! STORAGE_KEY = Some "" ->
   loadSettings (Some items) = loaded defaultSettings) /\
  (forall raw,
      items !! STORAGE_KEY = Some raw ->
      (forall props, JSON_parse raw <> Ret (JObj props)) ->
      loadSettings (Some items) = loaded defaultSettings).
Proof.
  unfold loadSettings. repeat split.
  - intros ->. reflexivity.
  - intros ->. reflexivity.
  - intros raw -> Hparse. destruct (truthy raw); [|reflexivity]. simpl.
    destruct (JSON_parse raw) as [[| | | | |props]|e]; simpl; try reflexivity.
    exfalso. exact (Hparse props eq_refl).
Qed.

(** X14. Whatever is stored, no field of the settings that [loadSettings]
    returns is [null] or [undefined]: a field the stored object lacks, or
    holds as [null], is replaced by its default. *)
Theorem loadSettings_fields_defined (localStorage : option (gmap string string)) :
  nullish (loaded_apiKey (loadSettings localStorage)) = false /\
  nullish (loaded_model (loadSettings localStorage)) = false /\
  nullish (loaded_vectorStoreId (loadSettings localStorage)) = false.
Proof.
  unfold loadSettings.
  destruct localStorage as [items|]; [|auto].
  destruct (items !! STORAGE_KEY) as [raw|]; [|auto].
  destruct (truthy raw); simpl; [|auto].
  destruct (JSON_parse raw) as [[| | | | |props]|e]; simpl;
    auto using coalesce_not_nullish.
Qed.

(** X15. Settings that were saved survive a reload: after
    [handleSettingsSave(next)] the application holds [next] and shows the
    knowledge base, [loadSettings] on the storage it wrote returns [next],
    and every other key of the storage is as it was. This needs of the
    browser that [JSON.parse] reads back what [JSON.stringify] wrote for
    [next], a text that is not empty. *)
Theorem saved_settings_survive_reload
    (next : Settings) (st : AppState) (items : gmap string string) :
  truthy (JSON_stringify (settings_json next)) = true ->
  JSON_parse (JSON_stringify (settings_json next)) = Ret (settings_json next) ->
  exists st' items',
    handleSettingsSave next st (Some items) = (st', Some items') /\
    st_settings st' = next /\
    st_view st' = kb /\
    loadSettings (Some items') = loaded next /\
    (forall key, key <> STORAGE_KEY -> items' !! key = items !! key).
Proof.
  intros Htext Hparse. eexists _, _. split; [reflexivity|].
  split; [reflexivity|]. split; [reflexivity|]. split.
  - unfold loadSettings. rewrite lookup_insert_eq, Htext. simpl.
    rewrite Hparse. reflexivity.
  - intros key Hkey. apply lookup_insert_ne. congruence.
Qed.

(** ** format.ts *)

(** X16. [formatDate] reads a timestamp below 10^10 as seconds and any
    other as milliseconds, so a time between 10^7 and 10^10 seconds after
    the epoch is rendered the same whether it is given in seconds or in
    milliseconds. *)
Theorem formatDate_seconds_or_milliseconds (seconds : Z) :
  10000000 <= seconds < 10000000000 ->
  formatDate (1000 * seconds) = formatDate seconds.
Proof.
  intros [Hlow Hhigh]. unfold formatDate.
  destruct (Z.ltb_spec (1000 * seconds) 10000000000) as [H|_]; [lia|].
  destruct (Z.ltb_spec seconds 10000000000) as [_|H]; [|lia].
  f_equal. lia.
Qed.

(** ** App.tsx *)

(** X17. Without both a key and a store id no handler reaches the client:
    [refreshFiles], [handleUpload], [handleReplace], [handleDelete] and
    [handleAsk] return after setting the error message, which is all they
    change in the state of the application, and send nothing. *)
Theorem handlers_need_settings (st : AppState) w :
  ready (st_settings st) = false ->
  refreshFiles st w
  = (Ret tt, setError (str "Add an API key and vector store to start.") st, w) /\
  (forall file,
      handleUpload file st w
      = (Ret tt, setError (str "Add API key and vector store first.") st, w)) /\
  (forall existingFileId nextFile,
      handleReplace existingFileId nextFile st w
      = (Ret tt, setError (str "Add API key and vector store first.") st, w)) /\
  (forall fileId,
      handleDelete fileId st w
      = (Ret tt, setError (str "Add API key and vector store first.") st, w)) /\
  (forall question,
      handleAsk question st w
      = (Ret tt, setError (str "Add API key and vector store first.") st, w)).
Proof.
  intros Hready.
  unfold refreshFiles, handleUpload, handleReplace, handleDelete, handleAsk,
    UI.bind, UI.render.
  rewrite Hready. repeat split.
Qed.

(** X18. [handleDelete] does nothing at all when the user declines the
    confirmation. When the user confirms and [deleteFile] returns a
    success, the list loses exactly the files whose [id] is the deleted
    one: the others stay, in their order. When [deleteFile] returns a
    failure the list is untouched and the error is shown. *)
Theorem handleDelete_updates_list (fileId : string) (st : AppState) w :
  ready (st_settings st) = true ->
  (confirm "Delete this file from the vector store?" = false ->
   handleDelete fileId st w = (Ret tt, st, w)) /\
  (confirm "Delete this file from the vector store?" = true ->
   forall result w',
     deleteFile fileId (st_settings st) w = (Ret result, w') ->
     exists st',
       handleDelete fileId st w = (Ret tt, st', w') /\
       match result with
       | Success _ =>
           st_files st' = filter (other_id fileId) (st_files st) /\
           (forall file,
               file ∈ st_files st' <->
               file ∈ st_files st /\ kf_id file <> str fileId)
       | Failure error =>
           st_files st' = st_files st /\ st_error st' = error
       end).
Proof.
  intros Hready. unfold handleDelete, UI.bind, UI.render. rewrite Hready. simpl.
  split.
  - intros ->. reflexivity.
  - intros -> result w' Hdelete. simpl. unfold UI.call. rewrite Hdelete.
    destruct result as [deleted|error]; simpl.
    + eexists. split; [reflexivity|]. simpl. split; [reflexivity|].
      intros file. rewrite list_elem_of_filter. unfold other_id, is_str, str.
      split; intros [Hid Hin]; split; auto.
      * destruct (kf_id file) as [[| | |s| |]|]; try discriminate.
        intros [= ->]. rewrite String.eqb_refl in Hid. exact Hid.
      * destruct (kf_id file) as [[| | |s| |]|]; auto.
        destruct (String.eqb_spec s fileId) as [->|Hne]; [|exact I].
        contradiction.
    + eexists. split; [reflexivity|]. split; reflexivity.
Qed.

Lemma uploadFile_Success_filename (file : File) (settings : Settings) w data w' :
  uploadFile file settings w = (Ret (Success data), w') ->
  kf_filename data = str (file_name file).
Proof.
  intros H. unfold uploadFile in H. unfold_run H. split_run H;
    try discriminate H; injection H as <- <-; reflexivity.
Qed.

Lemma replaceFile_Success_upload
    (existingFileId : string) (nextFile : File) (settings : Settings) w data w' :
  replaceFile existingFileId nextFile settings w = (Ret (Success data), w') ->
  exists w1, uploadFile nextFile settings w = (Ret (Success data), w1).
Proof.
  unfold replaceFile, JS.bind.
  destruct (uploadFile nextFile settings w) as [[[file|error]|e] w1];
    try discriminate.
  destruct (deleteFile existingFileId settings w1) as [[deleted|e] w2];
    try discriminate.
  intros [= <- <-]. eauto.
Qed.

(** X19. When [replaceFile] returns a success, [handleReplace] puts the new
    file, which carries the name of the local file, at the head of the list
    and drops every file whose [id] is the replaced one; the other files
    follow in their order, and the busy flag is cleared. *)
Theorem handleReplace_updates_list
    (existingFileId : string) (nextFile : File) (st : AppState) w data w' :
  ready (st_settings st) = true ->
  replaceFile existingFileId nextFile (st_settings st) w = (Ret (Success data), w') ->
  exists st',
    handleReplace existingFileId nextFile st w = (Ret tt, st', w') /\
    st_files st' = data :: filter (other_id existingFileId) (st_files st) /\
    kf_filename data = str (file_name nextFile) /\
    (forall file,
        file ∈ filter (other_id existingFileId) (st_files st) <->
        file ∈ st_files st /\ kf_id file <> str existingFileId) /\
    st_uploading st' = false.
Proof.
  intros Hready Hreplace.
  unfold handleReplace, UI.bind, UI.render, UI.call. rewrite Hready. simpl.
  rewrite Hreplace. simpl.
  eexists. split; [reflexivity|]. simpl. split; [reflexivity|]. split.
  - destruct (replaceFile_Success_upload _ _ _ _ _ _ Hreplace) as [w1 Hupload].
    exact (uploadFile_Success_filename _ _ _ _ _ Hupload).
  - split; [|reflexivity].
    intros file. rewrite list_elem_of_filter. unfold other_id, is_str, str.
    split; intros [Hid Hin]; split; auto.
    + destruct (kf_id file) as [[| | |s| |]|]; try discriminate.
      intros [= ->]. rewrite String.eqb_refl in Hid. exact Hid.
    + destruct (kf_id file) as [[| | |s| |]|]; auto.
      destruct (String.eqb_spec s existingFileId) as [->|Hne]; [|exact I].
      contradiction.
Qed.

Lemma askQuestion_Success_assistant
    (question : string) (chatHistory : list ChatMessage) (settings : Settings)
    w answer w' :
  askQuestion question chatHistory settings w = (Ret (Success answer), w') ->
  role answer = assistant.
Proof.
  intros H. unfold askQuestion in H. unfold_run H.
  split_run H; try discriminate H; injection H as <- <-; reflexivity.
Qed.

(** X20. The chat is append-only: however a run of [handleAsk] ends, by
    returning or by throwing, the messages that were there are still
    there, in their order, followed by nothing, or by the user's question
    trimmed, or by that question and the assistant's answer. *)
Theorem handleAsk_appends (question : string) (st : AppState) w outcome st' w' :
  handleAsk question st w = (outcome, st', w') ->
  exists added,
    st_chatMessages st' = (st_chatMessages st ++ added)%list /\
    (added = [] \/
     (exists asked,
         role asked = user /\ content asked = trim question /\
         (added = [asked] \/
          exists answer, role answer = assistant /\ added = [asked; answer]))).
Proof.
  intros H. unfold handleAsk in H. unfold_handler H.
  unfold crypto_randomUUID, now in H.
  destruct (negb (ready (st_settings st))).
  { injection H as <- <- <-. exists []. split; [symmetry; apply app_nil_r|auto]. }
  destruct (negb (truthy (trim question))).
  { injection H as <- <- <-. exists []. split; [symmetry; apply app_nil_r|auto]. }
  simpl in H.
  match type of H with
  | context [askQuestion ?q ?h ?s ?w0] =>
      destruct (askQuestion q h s w0) as [[[answer|error]|e] w1] eqn:Hask
  end; injection H as <- <- <-; simpl.
  - apply askQuestion_Success_assistant in Hask.
    match goal with
    | |- context [((_ ++ [?asked]) ++ _)%list] =>
        exists [asked; answer]; split; [rewrite <- app_assoc; reflexivity|];
        right; exists asked; split; [reflexivity|]; split; [reflexivity|];
        right; exists answer; split; [exact Hask|reflexivity]
    end.
  - match goal with
    | |- context [(_ ++ [?asked])%list] =>
        exists [asked]; split; [reflexivity|];
        right; exists asked; split; [reflexivity|]; split; [reflexivity|];
        left; reflexivity
    end.
  - match goal with
    | |- context [(_ ++ [?asked])%list] =>
        exists [asked]; split; [reflexivity|];
        right; exists asked; split; [reflexivity|]; split; [reflexivity|];
        left; reflexivity
    end.
Qed.

(** X21. The busy flag of a handler is cleared when the call of the client
    returns, with a success or with a failure, and stays set when that call
    throws: after [refreshFiles], [handleUpload], [handleReplace] and
    [handleAsk] the flag ([filesLoading], [uploading], [chatSending]) is
    [false] if the handler returned and [true] if it threw. *)
Theorem busy_flag_follows_outcome (st : AppState) w outcome st' w' :
  ready (st_settings st) = true ->
  (refreshFiles st w = (outcome, st', w') ->
   st_filesLoading st' = match outcome with Ret _ => false | Throw _ => true end) /\
  (forall file,
      handleUpload file st w = (outcome, st', w') ->
      st_uploading st' = match outcome with Ret _ => false | Throw _ => true end) /\
  (forall existingFileId nextFile,
      handleReplace existingFileId nextFile st w = (outcome, st', w') ->
      st_uploading st' = match outcome with Ret _ => false | Throw _ => true end) /\
  (forall question,
      truthy (trim question) = true ->
      handleAsk question st w = (outcome, st', w') ->
      st_chatSending st' = match outcome with Ret _ => false | Throw _ => true end).
Proof.
  intros Hready. repeat split; intros.
  - match goal with H : refreshFiles _ _ = _ |- _ =>
      unfold refreshFiles in H; unfold_handler H; rewrite Hready in H; simpl in H;
      destruct (listFiles (st_settings st) w) as [[[data|error]|e] w1];
      injection H as <- <- <-; reflexivity
    end.
  - match goal with H : handleUpload _ _ _ = _ |- _ =>
      unfold handleUpload in H; unfold_handler H; rewrite Hready in H; simpl in H;
      destruct (uploadFile file (st_settings st) w) as [[[data|error]|e] w1];
      injection H as <- <- <-; reflexivity
    end.
  - match goal with H : handleReplace _ _ _ _ = _ |- _ =>
      unfold handleReplace in H; unfold_handler H; rewrite Hready in H; simpl in H;
      destruct (replaceFile existingFileId nextFile (st_settings st) w)
        as [[[data|error]|e] w1];
      injection H as <- <- <-; reflexivity
    end.
  - match goal with
    | Hq : truthy _ = true, H : handleAsk _ _ _ = _ |- _ =>
        unfold handleAsk in H; unfold_handler H;
        unfold crypto_randomUUID, now in H;
        rewrite Hready, Hq in H; simpl in H;
        match type of H with
        | context [askQuestion ?q ?h ?s ?w0] =>
            destruct (askQuestion q h s w0) as [[[answer|error]|e] w1]
        end;
        injection H as <- <- <-; reflexivity
    end.
Qed.

End BrowserProperties.

(** ** Instances of the further properties at concrete inputs *)

Lemma handleResponse_failure_is_total_witness :
  exists error,
    handleResponse (response 401 "Unauthorized" (Some bad_key_body))
    = Ret (Failure error) /\
    nullish error = false.
Proof.
  destruct (handleResponse_failure_is_total
              (response 401 "Unauthorized" (Some bad_key_body)) eq_refl)
    as (error & Hfailure & Hdefined & _).
  exists error. split; assumption.
Defined.

Lemma missing_settings_messages_witness :
  fail_fast_with (host := unreachable_host) "Missing vector store id"
    settings_without_store fresh.
Proof.
  apply (proj2 (missing_settings_messages (host := unreachable_host)
                  settings_without_store fresh)); reflexivity.
Defined.

Lemma createVectorStore_preconditions_witness :
  createVectorStore (host := unreachable_host) "   " sample_settings fresh
  = (Throw (Error "Vector store name is required"), fresh).
Proof.
  apply (proj1 (createVectorStore_preconditions (host := unreachable_host)
                  "   " sample_settings fresh)).
  reflexivity.
Defined.

Lemma request_budget_witness :
  exists new,
    sent (snd (replaceFile (host := refusing_delete_host) "vsf_0" sample_file
                 sample_settings fresh))
    = (sent fresh ++ new)%list /\
    at_most 3 new.
Proof.
  apply (proj2 (proj2 (proj2 (proj2
           (request_budget (host := refusing_delete_host) sample_settings))))
           "vsf_0" sample_file fresh _ _ eq_refl).
Defined.

Lemma every_request_is_authorized_witness :
  exists new,
    sent (snd (listFiles (host := listing_host) sample_settings fresh))
    = (sent fresh ++ new)%list /\
    Forall (authorized sample_settings) new.
Proof.
  apply (proj1 (every_request_is_authorized (host := listing_host) sample_settings)
           fresh _ _ eq_refl).
Defined.

Lemma uploadFile_success_shape_witness :
  exists data w',
    uploadFile (host := refusing_delete_host) sample_file sample_settings fresh
    = (Ret (Success data), w') /\
    kf_filename data = str "notes.txt".
Proof.
  eexists _, _. split; [reflexivity|].
  apply (uploadFile_success_shape (host := refusing_delete_host)
           sample_file sample_settings fresh _ _ eq_refl).
Defined.

Lemma uploadFile_stops_at_first_failure_witness :
  exists error,
    uploadFile (host := constant_host (response 500 "Internal Server Error" None))
      sample_file sample_settings fresh
    = (Ret (Failure error),
       record (upload_request sample_file sample_settings) fresh).
Proof.
  destruct (uploadFile_stops_at_first_failure
              (host := constant_host (response 500 "Internal Server Error" None))
              sample_file sample_settings fresh
              (response 500 "Internal Server Error" None)
              eq_refl eq_refl eq_refl eq_refl)
    as (error & _ & Hupload).
  exists error. exact Hupload.
Defined.

Lemma replaceFile_success_requests_witness :
  exists uploaded_id,
    sent (snd (replaceFile
                 (host := constant_host
                            (response 200 "OK" (Some (JObj [("id", JStr "file_1")]))))
                 "vsf_0" sample_file sample_settings fresh))
    = [upload_request sample_file sample_settings;
       attach_request
         (host := constant_host
                    (response 200 "OK" (Some (JObj [("id", JStr "file_1")]))))
         uploaded_id sample_settings;
       delete_request "vsf_0" sample_settings].
Proof.
  apply (replaceFile_success_requests
           (host := constant_host
                      (response 200 "OK" (Some (JObj [("id", JStr "file_1")]))))
           "vsf_0" sample_file sample_settings fresh _ _ eq_refl).
Defined.


Lemma listFiles_fills_defaults_witness :
  exists files w',
    listFiles (host := listing_host) sample_settings fresh
    = (Ret (Success files), w') /\
    Forall (fun file => nullish (kf_bytes file) = false) files.
Proof.
  eexists _, _. split; [reflexivity|].
  eapply Forall_impl.
  - apply (listFiles_fills_defaults (host := listing_host)
             sample_settings fresh _ _ eq_refl).
  - intros file (Hbytes & _). exact Hbytes.
Defined.

Lemma askQuestion_success_shape_witness :
  exists answer w',
    askQuestion (host := constant_host (response 200 "OK" (Some lyon_body)))
      "Where?" [] sample_settings fresh
    = (Ret (Success answer), w') /\
    role answer = assistant /\ content answer <> "".
Proof.
  eexists _, _. split; [reflexivity|].
  destruct (askQuestion_success_shape
              (host := constant_host (response 200 "OK" (Some lyon_body)))
              "Where?" [] sample_settings fresh _ _ eq_refl)
    as (Hrole & Hcontent & _).
  split; assumption.
Defined.

Lemma askQuestion_tolerates_shapes_witness :
  exists answer w',
    askQuestion (host := constant_host (response 200 "OK" (Some foo_body)))
      "Where?" [] sample_settings fresh
    = (Ret (Success answer), w') /\
    askQuestion_within (host := constant_host (response 200 "OK" (Some foo_body)))
      5 "Where?" [] sample_settings fresh
    = (Ret (Success answer), w') /\
    content answer <> "" /\
    unwrap_within (host := constant_host (response 200 "OK" (Some foo_body)))
      5 foo_body
    = Ret (content answer).
Proof.
  apply (askQuestion_tolerates_shapes
           (host := constant_host (response 200 "OK" (Some foo_body)))
           "Where?" [] sample_settings fresh
           (response 200 "OK" (Some foo_body)) [("foo", JNum 1)] 5
           eq_refl eq_refl eq_refl eq_refl eq_refl eq_refl).
  - exact I.
  - simpl. lia.
Defined.

Lemma unwrap_prefers_message_text_witness :
  unwrap (host := unreachable_host)
    (JObj [("output_text", JStr "Lyon");
           ("output",
            JArr [JObj [("type", JStr "reasoning")];
                  JObj [("type", JStr "message");
                        ("content",
                         JArr [JObj [("type", JStr "refusal")];
                               JObj [("type", JStr "output_text");
                                     ("text", JStr "Paris")]])]])])
  = Ret "Paris".
Proof.
  eapply (unwrap_prefers_message_text (host := unreachable_host));
    first [reflexivity | discriminate].
Defined.

Lemma loadSettings_defaults_witness :
  loadSettings (window := constant_window (Throw SyntaxError) true)
    (Some {[ STORAGE_KEY := "not json" ]})
  = loaded defaultSettings.
Proof.
  apply (proj2 (proj2 (proj2
           (loadSettings_defaults
              (window := constant_window (Throw SyntaxError) true)
              {[ STORAGE_KEY := "not json" ]})))
           "not json").
  - reflexivity.
  - intros props. discriminate.
Defined.

Lemma saved_settings_survive_reload_witness :
  exists st' items',
    handleSettingsSave
      (host := constant_host (response 200 "OK" None)) sample_settings
      sample_app (Some ∅)
    = (st', Some items') /\
    loadSettings
      (window := constant_window (Ret (settings_json sample_settings)) true)
      (Some items')
    = loaded sample_settings.
Proof.
  destruct (saved_settings_survive_reload
              (host := constant_host (response 200 "OK" None))
              (window := constant_window (Ret (settings_json sample_settings)) true)
              sample_settings sample_app ∅ eq_refl eq_refl)
    as (st' & items' & Hsave & _ & _ & Hload & _).
  exists st', items'. split; assumption.
Defined.

Lemma formatDate_seconds_or_milliseconds_witness :
  formatDate (window := constant_window (Throw SyntaxError) true) 1700000000000
  = formatDate (window := constant_window (Throw SyntaxError) true) 1700000000.
Proof.
  apply (formatDate_seconds_or_milliseconds
           (window := constant_window (Throw SyntaxError) true) 1700000000).
  lia.
Defined.

Lemma handlers_need_settings_witness :
  handleDelete (host := unreachable_host)
    (window := constant_window (Throw SyntaxError) true)
    "vsf_0" (setSettings settings_without_store sample_app) fresh
  = (Ret tt,
     setError (str "Add API key and vector store first.")
       (setSettings settings_without_store sample_app),
     fresh).
Proof.
  apply (handlers_need_settings (host := unreachable_host)
           (window := constant_window (Throw SyntaxError) true)
           (setSettings settings_without_store sample_app) fresh eq_refl).
Defined.

Lemma handleDelete_updates_list_witness :
  handleDelete (host := unreachable_host)
    (window := constant_window (Throw SyntaxError) false)
    "vsf_0" sample_app fresh
  = (Ret tt, sample_app, fresh).
Proof.
  apply (proj1 (handleDelete_updates_list (host := unreachable_host)
                  (window := constant_window (Throw SyntaxError) false)
                  "vsf_0" sample_app fresh eq_refl)).
  reflexivity.
Defined.

Lemma handleReplace_updates_list_witness :
  exists st' data,
    snd (fst (handleReplace (host := refusing_delete_host)
                "vsf_0" sample_file sample_app fresh)) = st' /\
    st_files st' = data :: filter (other_id "vsf_0") (st_files sample_app).
Proof.
  destruct (handleReplace_updates_list (host := refusing_delete_host)
              "vsf_0" sample_file sample_app fresh _ _ eq_refl eq_refl)
    as (st' & Hrun & Hfiles & _).
  eexists st', _. split; [rewrite Hrun; reflexivity|exact Hfiles].
Defined.

Lemma handleAsk_appends_witness :
  exists added,
    st_chatMessages
      (snd (fst (handleAsk
                   (host := constant_host (response 200 "OK" (Some paris_body)))
                   "  Capital of France? " sample_app fresh)))
    = (st_chatMessages sample_app ++ added)%list.
Proof.
  destruct (handleAsk_appends
              (host := constant_host (response 200 "OK" (Some paris_body)))
              "  Capital of France? " sample_app fresh _ _ _ eq_refl)
    as (added & Hadded & _).
  exists added. exact Hadded.
Defined.

Lemma busy_flag_follows_outcome_witness :
  st_filesLoading
    (snd (fst (refreshFiles (host := constant_host (response 200 "OK" None))
                 sample_app fresh)))
  = true.
Proof.
  apply (proj1 (busy_flag_follows_outcome
                  (host := constant_host (response 200 "OK" None))
                  sample_app fresh _ _ _ eq_refl) eq_refl).
Defined.
